(** * PlantGuard AI: a shallow embedding of the Flask application

    The development follows the three Python modules of the application:
    [utils] (catalog tables, classifier, upload helpers), [db] (the MongoDB
    gateway) and [app] (the HTTP routes).  Python text is modelled as the
    string of the bytes of its UTF-8 encoding.  Where the result of a
    string method depends on characters outside ASCII (the [strip] and
    [lower] of the account routes), the method is a parameter; the ASCII
    versions written out here serve the file names, where they decide as
    Python does, and the sample runs.  The arithmetic of floats that rounds
    is a parameter too, and a float is read as the real number it stands
    for; exceptions are values of [exn] carried by [result]; module state,
    the upload directory, the database and the console are fields of an
    explicit [World] threaded through a state-and-exception monad. *)

From Stdlib Require Import List String Ascii ZArith NArith Bool Lia.
From Stdlib Require Import Reals Lra Permutation Sorted.
Import ListNotations.

Local Open Scope string_scope.
Local Open Scope Z_scope.

(** ** Python strings *)

Module pystr.

Definition is_upper (c : ascii) : bool :=
  let n := N_of_ascii c in (65 <=? n)%N && (n <=? 90)%N.

Definition lower_char (c : ascii) : ascii :=
  if is_upper c then ascii_of_N (N_of_ascii c + 32) else c.

(** [str.lower] on ASCII letters; the bytes of other characters are kept.
    Python maps capitals outside ASCII as well.  None of them is mapped to
    text with one of the letters b, e, g, j, m, n, p or w, so that for the
    membership of an extension in the allowed ones, the one use of this
    function by the application, the outcome is that of Python. *)
Fixpoint lower (s : string) : string :=
  match s with
  | EmptyString => EmptyString
  | String c r => String (lower_char c) (lower r)
  end.

(** The ASCII characters for which [str.isspace] holds: TAB, LF, VT, FF, CR,
    the four separators 0x1c-0x1f and the space. *)
Definition is_space (c : ascii) : bool :=
  let n := N_of_ascii c in
  ((9 <=? n)%N && (n <=? 13)%N) || ((28 <=? n)%N && (n <=? 32)%N).

Fixpoint lstrip (s : string) : string :=
  match s with
  | EmptyString => EmptyString
  | String c r => if is_space c then lstrip r else s
  end.

Fixpoint rstrip (s : string) : string :=
  match s with
  | EmptyString => EmptyString
  | String c r =>
      match rstrip r with
      | EmptyString => if is_space c then EmptyString else String c EmptyString
      | r' => String c r'
      end
  end.

(** [str.strip] with no argument, for the white space of ASCII.  Python
    removes the white space outside ASCII as well, such as the no-break
    space; the account routes take their [strip] as a parameter, and this
    one serves the sample runs. *)
Definition strip (s : string) : string := rstrip (lstrip s).

(** [c in s] for a one-character [c] *)
Fixpoint contains (c : ascii) (s : string) : bool :=
  match s with
  | EmptyString => false
  | String d r => Ascii.eqb c d || contains c r
  end.

(** [s.rsplit(sep, 1)] for a one-character separator: the text before and
    after the last occurrence of [sep], or [None] when [sep] does not occur
    (Python then returns the one-element list [[s]]). *)
Fixpoint rsplit1 (sep : ascii) (s : string) : option (string * string) :=
  match s with
  | EmptyString => None
  | String c r =>
      match rsplit1 sep r with
      | Some (h, t) => Some (String c h, t)
      | None => if Ascii.eqb c sep then Some (EmptyString, r) else None
      end
  end.

(** [s.rsplit(sep, 1)[-1]] *)
Definition rsplit1_last (sep : ascii) (s : string) : string :=
  match rsplit1 sep s with
  | Some (_, t) => t
  | None => s
  end.

(** [s.endswith(c)] and [s.startswith(c)] for a one-character [c] *)
Fixpoint endswith (c : ascii) (s : string) : bool :=
  match s with
  | EmptyString => false
  | String d EmptyString => Ascii.eqb c d
  | String _ r => endswith c r
  end.

Definition startswith (c : ascii) (s : string) : bool :=
  match s with
  | EmptyString => false
  | String d _ => Ascii.eqb c d
  end.

Definition is_empty (s : string) : bool :=
  match s with EmptyString => true | _ => false end.

(** [x in xs] for a collection of strings *)
Fixpoint str_in (x : string) (xs : list string) : bool :=
  match xs with
  | [] => false
  | y :: r => String.eqb x y || str_in x r
  end.

(** [posixpath.join a b] *)
Definition os_path_join (a b : string) : string :=
  if startswith "/" b then b
  else if is_empty a || endswith "/" a then a ++ b
  else a ++ "/" ++ b.

(** The vocabulary of the properties: statements about case and white
    space that do not mention [lower] or [strip]. *)

(** Two characters that are the same letter up to case. *)
Definition same_letter (c d : ascii) : Prop :=
  c = d
  \/ (is_upper c = true /\ N_of_ascii d = (N_of_ascii c + 32)%N)
  \/ (is_upper d = true /\ N_of_ascii c = (N_of_ascii d + 32)%N).

(** Two strings that differ only in letter case. *)
Inductive caseless : string -> string -> Prop :=
| caseless_nil : caseless "" ""
| caseless_cons c d s t :
    same_letter c d -> caseless s t -> caseless (String c s) (String d t).

(** A string of white space only. *)
Fixpoint blank (s : string) : Prop :=
  match s with
  | EmptyString => True
  | String c r => is_space c = true /\ blank r
  end.

End pystr.

(** ** Exceptions and results *)

Inductive exn : Type :=
| KeyError (key : Z)
| BadRequestKeyError (key : string)
| AttributeError
| TypeError
| RuntimeError
| OSError
| IsADirectoryError
| FileNotFoundError
| UnidentifiedImageError
| ServerSelectionTimeoutError
| DuplicateKeyError
| ValueError
| OverflowError.

Inductive result (A : Type) : Type :=
| Ok (a : A)
| Raise (e : exn).
Arguments Ok {A} a.
Arguments Raise {A} e.

(** Text that reaches a client or the console: a literal, or a literal
    followed by [str(e)] of an exception. *)
Inductive message : Type :=
| Lit (s : string)
| WithExn (prefix : string) (e : exn).

(** ** Documents, catalog rows and the world *)

(** [ObjectId] values and their [str] rendering. *)
Inductive id_field : Type :=
| ObjectId (n : N)
| StrId (n : N).

Definition str_id (i : id_field) : id_field :=
  match i with ObjectId n => StrId n | StrId n => StrId n end.

Record Supplement : Type := {
  sup_name : string;
  sup_image_url : string;
  sup_buy_link : string }.

(** The dictionary built by [utils.get_disease_info]. *)
Record DiseaseInfo : Type := {
  info_disease_name : string;
  info_description : string;
  info_possible_steps : string;
  info_disease_image_url : string;
  info_supplement : Supplement }.

Record PredictionDoc : Type := {
  p_id : id_field;
  p_image_filename : string;
  p_disease_name : string;
  p_confidence : R;
  p_description : string;
  p_possible_steps : string;
  p_supplement : Supplement;
  p_created_at : Z }.

(** The document [/test-db] inserts into the predictions: it has no field
    of a prediction, and its [created_at] is the ISO text of the time and
    not a date. *)
Record TestDoc : Type := {
  t_id : id_field;
  t_type : string;
  t_message : string;
  t_created_at : string }.

(** What the predictions collection holds. *)
Inductive document : Type :=
| Prediction (d : PredictionDoc)
| ConnectionTest (t : TestDoc).

Record UserDoc : Type := {
  u_id : id_field;
  u_name : string;
  u_email : string;
  u_password : string;
  u_created_at : Z }.

Record World : Type := {
  dirs : list string;                   (* directories known to exist *)
  fs_files : list (string * string);    (* path |-> bytes written *)
  disk_ok : bool;                       (* can directories be created *)
  can_open : string -> bool;            (* does [open(path, "wb")] succeed *)
  mongo_up : bool;                      (* is the MongoDB server reachable *)
  unique_email_index : bool;            (* did [create_index] succeed *)
  tie_break : document -> document -> bool;
                                        (* the order the server gives to two
                                           documents with equal sort keys *)
  predictions_col : list document;      (* in insertion order *)
  users_col : list UserDoc;             (* in insertion order *)
  next_oid : N;
  clock : Z;                            (* [datetime.now(timezone.utc)] *)
  forward_passes : list string;         (* images the model was run on *)
  stdout : list message }.

(** ** The state-and-exception monad of a request *)

Definition M (A : Type) : Type := World -> World * result A.

Definition ret {A} (a : A) : M A := fun w => (w, Ok a).

Definition raise {A} (e : exn) : M A := fun w => (w, Raise e).

Definition bind {A B} (m : M A) (k : A -> M B) : M B :=
  fun w =>
    match m w with
    | (w1, Ok a) => k a w1
    | (w1, Raise e) => (w1, Raise e)
    end.

(** [try: body  except Exception as e: handler e] *)
Definition try_except {A} (body : M A) (handler : exn -> M A) : M A :=
  fun w =>
    match body w with
    | (w1, Ok a) => (w1, Ok a)
    | (w1, Raise e) => handler e w1
    end.

Definition lift {A} (r : result A) : M A := fun w => (w, r).

Notation "x <- c1 ;; c2" := (bind c1 (fun x => c2))
  (at level 61, c1 at next level, right associativity).
Notation "c1 ;;; c2" := (bind c1 (fun _ => c2))
  (at level 61, right associativity).

Definition print (m : message) : M unit :=
  fun w =>
    ({| dirs := dirs w; fs_files := fs_files w; disk_ok := disk_ok w; can_open := can_open w;
        mongo_up := mongo_up w; tie_break := tie_break w; unique_email_index := unique_email_index w;
        predictions_col := predictions_col w; users_col := users_col w;
        next_oid := next_oid w; clock := clock w;
        forward_passes := forward_passes w;
        stdout := stdout w ++ [m] |}, Ok tt).

Definition with_dirs (d : list string) (w : World) : World :=
  {| dirs := d; fs_files := fs_files w; disk_ok := disk_ok w; can_open := can_open w;
     mongo_up := mongo_up w; tie_break := tie_break w; unique_email_index := unique_email_index w;
     predictions_col := predictions_col w; users_col := users_col w;
     next_oid := next_oid w; clock := clock w;
     forward_passes := forward_passes w; stdout := stdout w |}.

Definition with_files (f : list (string * string)) (w : World) : World :=
  {| dirs := dirs w; fs_files := f; disk_ok := disk_ok w; can_open := can_open w;
     mongo_up := mongo_up w; tie_break := tie_break w; unique_email_index := unique_email_index w;
     predictions_col := predictions_col w; users_col := users_col w;
     next_oid := next_oid w; clock := clock w;
     forward_passes := forward_passes w; stdout := stdout w |}.

Definition with_forward (p : list string) (w : World) : World :=
  {| dirs := dirs w; fs_files := fs_files w; disk_ok := disk_ok w; can_open := can_open w;
     mongo_up := mongo_up w; tie_break := tie_break w; unique_email_index := unique_email_index w;
     predictions_col := predictions_col w; users_col := users_col w;
     next_oid := next_oid w; clock := clock w;
     forward_passes := p; stdout := stdout w |}.

(** The two collections change by an insertion, which uses up one
    [ObjectId]. *)
Definition with_predictions (p : list document) (w : World) : World :=
  {| dirs := dirs w; fs_files := fs_files w; disk_ok := disk_ok w; can_open := can_open w;
     mongo_up := mongo_up w; tie_break := tie_break w; unique_email_index := unique_email_index w;
     predictions_col := p; users_col := users_col w;
     next_oid := N.succ (next_oid w); clock := clock w;
     forward_passes := forward_passes w; stdout := stdout w |}.

Definition with_users (u : list UserDoc) (w : World) : World :=
  {| dirs := dirs w; fs_files := fs_files w; disk_ok := disk_ok w; can_open := can_open w;
     mongo_up := mongo_up w; tie_break := tie_break w; unique_email_index := unique_email_index w;
     predictions_col := predictions_col w; users_col := u;
     next_oid := N.succ (next_oid w); clock := clock w;
     forward_passes := forward_passes w; stdout := stdout w |}.

(** ** torch: the tensor operations used by the classifier *)

Module torch.

Local Open Scope R_scope.

(** A tensor with one row: the logits or the probabilities of one image,
    or its pixel values.  A single-precision number is read as the real
    number it stands for; rows with an infinity or with a not-a-number
    entry are not covered. *)
Definition Tensor : Type := list R.

(** Scan for the first maximal entry: [best] at position [bi] is the maximum
    of the entries before position [i]. *)
Fixpoint max_from (best : R) (bi i : nat) (xs : list R) : R * nat :=
  match xs with
  | [] => (best, bi)
  | x :: r =>
      if Rlt_dec best x then max_from x i (S i) r
      else max_from best bi (S i) r
  end.

(** [torch.max(t, dim=1)] on a batch of one: the largest entry and the index
    of its first occurrence; fails on an empty row.  Comparing two numbers
    is exact in floating point, so nothing is rounded here. *)
Definition max (xs : Tensor) : result (R * nat) :=
  match xs with
  | [] => Raise RuntimeError
  | x :: r => Ok (max_from x 0 1 r)
  end.

End torch.

(** ** Floating-point arithmetic *)

Module numeric.

(** The operations of the classifier that round: the softmax kernel of
    torch in single precision, the product of two Python floats and the
    builtin [round].  Their results are those of the machine and are
    parameters here. *)
Record Kernels : Type := {
  softmax : torch.Tensor -> torch.Tensor;   (* [softmax(output, dim=1)] *)
  mul : R -> R -> R;                        (* [a * b] *)
  round : R -> nat -> R }.                  (* [round(x, ndigits)] *)

End numeric.

(** The same operations in exact arithmetic, which the kernels
    approximate. *)
Module exact.

Local Open Scope R_scope.

Definition sum (xs : list R) : R := fold_right Rplus 0 xs.

Definition softmax (xs : torch.Tensor) : torch.Tensor :=
  map (fun x => exp x / sum (map exp xs)) xs.

(** Rounding to the nearest integer, ties to the even one. *)
Definition round_half_even (r : R) : Z :=
  let f := Int_part r in
  let d := r - IZR f in
  if Rlt_dec d (1 / 2) then f
  else if Rlt_dec (1 / 2) d then (f + 1)%Z
  else if Z.even f then f else (f + 1)%Z.

Definition round (x : R) (ndigits : nat) : R :=
  IZR (round_half_even (x * 10 ^ ndigits)) / 10 ^ ndigits.

Definition kernels : numeric.Kernels :=
  {| numeric.softmax := softmax; numeric.mul := Rmult;
     numeric.round := round |}.

End exact.

(** ** utils.py *)

Module utils.

(** A cell of a data frame read by [pandas.read_csv]: text, or the
    not-a-number float that stands for an empty field. *)
Inductive cell : Type :=
| CStr (s : string)
| CNaN.

(** [str(cell)] *)
Definition str (c : cell) : string :=
  match c with CStr s => s | CNaN => "nan" end.

(** A row of [disease_info.csv], with the columns the code reads. *)
Record DiseaseRow : Type := {
  disease_name : cell;
  description : cell;
  Possible_Steps : cell;
  image_url : cell }.

(** A row of [supplement_info.csv], with the columns the code reads. *)
Record SupplementRow : Type := {
  supplement_name : cell;
  supplement_image : cell;
  buy_link : cell }.

(** The number of classes the network is built with: [CNN(num_classes=39)]. *)
Definition num_classes : nat := 39.

(** The number of bands of a picture of PIL: one (the modes 1, L, P, I and
    F), two (LA, PA), three (RGB, YCbCr, LAB, HSV) or four (RGBA, CMYK and
    the like). *)
Inductive bands : Type := one_band | two_bands | three_bands | four_bands.

Definition band_count (b : bands) : Z :=
  match b with
  | one_band => 1
  | two_bands => 2
  | three_bands => 3
  | four_bands => 4
  end.

(** What [TF.to_tensor] makes of a picture resized to 224 by 224: a tensor
    of shape [(C, 224, 224)], where [C] is the number of bands. *)
Record Picture : Type := {
  picture_bands : bands;
  picture_values : torch.Tensor }.

(** [tensor.view(-1, 3, 224, 224)]: the number of elements has to be a
    multiple of 3 * 224 * 224.  For a tensor of one to four bands this
    leaves the tensors of three bands, as a batch of one. *)
Definition view (tensor : Picture) : result torch.Tensor :=
  if (band_count (picture_bands tensor) * 224 * 224) mod (3 * 224 * 224) =? 0
  then Ok (picture_values tensor)
  else Raise RuntimeError.

(** The module state of [utils]: what its imports and its top-level
    statements bind.  The data files, the network of [model.py] and the
    libraries are not part of the sources at hand and are parameters here:
    [image_open] stands for [Image.open(..).resize((224, 224))] followed by
    [TF.to_tensor] on the bytes of a file (decoding and resampling are the
    work of PIL, which raises on bytes that are no picture), [model] for
    the forward pass of the loaded network, [kernels] for the arithmetic of
    torch and of the interpreter. *)
Record Module_state : Type := {
  BASE_DIR : string;
  disease_info : list DiseaseRow;
  supplement_info : list SupplementRow;
  image_open : string -> result Picture;
  model : torch.Tensor -> result torch.Tensor;
  kernels : numeric.Kernels }.

(** The top-level statements of [utils.py], in order: read the two tables,
    build the network and load its weights.  Each of the three steps may
    fail ([read_csv] on a missing or malformed file, [load_state_dict] on
    missing or ill-shaped weights); an exception here aborts the import and
    the application does not start. *)
Definition import_module
    (base : string)
    (read_disease_csv : result (list DiseaseRow))
    (read_supplement_csv : result (list SupplementRow))
    (opener : string -> result Picture)
    (load_model : result (torch.Tensor -> result torch.Tensor))
    (k : numeric.Kernels)
  : result Module_state :=
  match read_disease_csv with
  | Raise e => Raise e
  | Ok d =>
      match read_supplement_csv with
      | Raise e => Raise e
      | Ok s =>
          match load_model with
          | Raise e => Raise e
          | Ok m =>
              Ok {| BASE_DIR := base; disease_info := d;
                    supplement_info := s; image_open := opener; model := m;
                    kernels := k |}
          end
      end
  end.

Definition UPLOAD_DIR (u : Module_state) : string :=
  pystr.os_path_join (pystr.os_path_join (BASE_DIR u) "static") "uploads".

Fixpoint lookup_file (path : string) (fs : list (string * string))
  : option string :=
  match fs with
  | [] => None
  | (p, bytes) :: r => if String.eqb path p then Some bytes else lookup_file path r
  end.

(** [_preprocess]: open the file at [image_path], resize the picture, turn
    it into a tensor and view the tensor as a batch of pictures of three
    bands. *)
Definition _preprocess (u : Module_state) (image_path : string)
  : M torch.Tensor :=
  fun w =>
    match lookup_file image_path (fs_files w) with
    | None => (w, Raise FileNotFoundError)
    | Some bytes =>
        match image_open u bytes with
        | Ok tensor => (w, view tensor)
        | Raise e => (w, Raise e)
        end
    end.

(** [model(input_data)]: one forward pass, recorded in the world. *)
Definition forward (u : Module_state) (image_path : string)
    (input_data : torch.Tensor) : M torch.Tensor :=
  fun w =>
    (with_forward (forward_passes w ++ [image_path]) w, model u input_data).

Definition predict_with_confidence (u : Module_state) (image_path : string)
  : M (Z * R) :=
  input_data <- _preprocess u image_path ;;
  output <- forward u image_path input_data ;;
  let probabilities := numeric.softmax (kernels u) output in
  cp <- lift (torch.max probabilities) ;;
  let '(confidence, predicted_class) := cp in
  ret (Z.of_nat predicted_class,
       numeric.round (kernels u) (numeric.mul (kernels u) confidence 100) 2).

(** [series[index]] on a column of a frame with the default [RangeIndex]:
    a lookup by label, so only the labels [0 .. len-1] are found. *)
Definition getitem {A} (series : list A) (index : Z) : result A :=
  if (0 <=? index) && (index <? Z.of_nat (List.length series)) then
    match nth_error series (Z.to_nat index) with
    | Some v => Ok v
    | None => Raise (KeyError index)
    end
  else Raise (KeyError index).

(** [frame[column]] *)
Definition column {Row A} (frame : list Row) (col : Row -> A) : list A :=
  map col frame.

Definition rbind {A B} (r : result A) (k : A -> result B) : result B :=
  match r with Ok a => k a | Raise e => Raise e end.

Definition get_disease_info (u : Module_state) (index : Z)
  : result DiseaseInfo :=
  rbind (getitem (column (disease_info u) disease_name) index) (fun dn =>
  rbind (getitem (column (disease_info u) description) index) (fun de =>
  rbind (getitem (column (disease_info u) Possible_Steps) index) (fun ps =>
  rbind (getitem (column (disease_info u) image_url) index) (fun iu =>
  rbind (getitem (column (supplement_info u) supplement_name) index) (fun sn =>
  rbind (getitem (column (supplement_info u) supplement_image) index) (fun si =>
  rbind (getitem (column (supplement_info u) buy_link) index) (fun bl =>
  Ok {| info_disease_name := str dn;
        info_description := str de;
        info_possible_steps := str ps;
        info_disease_image_url := str iu;
        info_supplement :=
          {| sup_name := str sn; sup_image_url := str si;
             sup_buy_link := str bl |} |}))))))).

Definition ALLOWED : list string := ["png"; "jpg"; "jpeg"; "webp"; "bmp"].

Definition allowed_file (filename : string) : bool :=
  pystr.contains "." filename
  && pystr.str_in (pystr.lower (pystr.rsplit1_last "." filename)) ALLOWED.

(** [os.makedirs(UPLOAD_DIR, exist_ok=True)]: nothing to do when the
    directory exists; otherwise it is created, or the call fails. *)
Definition ensure_upload_dir (u : Module_state) : M unit :=
  fun w =>
    if pystr.str_in (UPLOAD_DIR u) (dirs w) then (w, Ok tt)
    else if disk_ok w then (with_dirs (UPLOAD_DIR u :: dirs w) w, Ok tt)
    else (w, Raise OSError).

End utils.

(** ** db.py *)

Module db.

(** [datetime.now(timezone.utc)] *)
Definition utcnow : M Z := fun w => (w, Ok (clock w)).

(** [predictions_col.insert_one(doc)]: the server assigns the [_id]. *)
Definition predictions_insert_one (doc : id_field -> PredictionDoc)
  : M id_field :=
  fun w =>
    if mongo_up w then
      let oid := ObjectId (next_oid w) in
      (with_predictions (predictions_col w ++ [Prediction (doc oid)]) w, Ok oid)
    else (w, Raise ServerSelectionTimeoutError).

Definition save_prediction (image_filename disease_name : string)
    (confidence : R) (details : DiseaseInfo) : M id_field :=
  now <- utcnow ;;
  let doc := fun oid =>
    {| p_id := oid;
       p_image_filename := image_filename;
       p_disease_name := disease_name;
       p_confidence := confidence;
       p_description := info_description details;
       p_possible_steps := info_possible_steps details;
       p_supplement := info_supplement details;
       p_created_at := now |} in
  inserted_id <- predictions_insert_one doc ;;
  ret (str_id inserted_id).

(** The value a document has under [created_at]. *)
Inductive created_at_value : Type :=
| Date (t : Z)
| Text (s : string).

Definition created_at (d : document) : created_at_value :=
  match d with
  | Prediction p => Date (p_created_at p)
  | ConnectionTest t => Text (t_created_at t)
  end.

(** The order of the server on these values: every text is below every
    date, two dates compare as times, two texts byte by byte. *)
Definition key_leb (a b : created_at_value) : bool :=
  match a, b with
  | Date s, Date t => s <=? t
  | Text _, Date _ => true
  | Date _, Text _ => false
  | Text s, Text t => String.leb s t
  end.

Definition key_ltb (a b : created_at_value) : bool := negb (key_leb b a).

(** [cursor.sort("created_at", -1)]: greatest key first.  The order of two
    documents with equal keys is left open by the server: [before] decides
    it. *)
Fixpoint insert_desc (before : document -> document -> bool)
    (d : document) (l : list document) : list document :=
  match l with
  | [] => [d]
  | x :: r =>
      if key_ltb (created_at x) (created_at d) then d :: x :: r
      else if key_ltb (created_at d) (created_at x) then
        x :: insert_desc before d r
      else if before d x then d :: x :: r
      else x :: insert_desc before d r
  end.

Definition sort_desc (before : document -> document -> bool)
    (l : list document) : list document :=
  fold_right (insert_desc before) [] l.

(** [cursor.limit(n)]: pymongo sends [abs(n)] as the limit of the query when
    [n] is not zero, and no limit at all when [n] is zero ("a limit of 0 is
    equivalent to no limit"). *)
Definition limit {A} (n : Z) (l : list A) : list A :=
  if n =? 0 then l else firstn (Z.abs_nat n) l.

(** [doc["_id"] = str(doc["_id"])] *)
Definition stringify_id (doc : document) : document :=
  match doc with
  | Prediction d =>
      Prediction
        {| p_id := str_id (p_id d);
           p_image_filename := p_image_filename d;
           p_disease_name := p_disease_name d;
           p_confidence := p_confidence d;
           p_description := p_description d;
           p_possible_steps := p_possible_steps d;
           p_supplement := p_supplement d;
           p_created_at := p_created_at d |}
  | ConnectionTest t =>
      ConnectionTest
        {| t_id := str_id (t_id t); t_type := t_type t;
           t_message := t_message t; t_created_at := t_created_at t |}
  end.

(** Iterating [predictions_col.find().sort("created_at", -1).limit(n)].  The
    driver cannot encode a limit of more than eight bytes. *)
Definition find_sorted_limited (n : Z) : M (list document) :=
  fun w =>
    if mongo_up w then
      if 2 ^ 63 <=? Z.abs n then (w, Raise OverflowError)
      else (w, Ok (limit n (sort_desc (tie_break w) (predictions_col w))))
    else (w, Raise ServerSelectionTimeoutError).

Definition get_recent_predictions (n : Z) : M (list document) :=
  cursor <- find_sorted_limited n ;;
  ret (map stringify_id cursor).

(** [users_col.find_one({"email": email})] *)
Definition find_user_by_email (email : string) : M (option UserDoc) :=
  fun w =>
    if mongo_up w then
      (w, Ok (find (fun u => String.eqb (u_email u) email) (users_col w)))
    else (w, Raise ServerSelectionTimeoutError).

(** [users_col.insert_one(doc)]: refused by the unique index on [email],
    when that index exists, if the address is already stored. *)
Definition users_insert_one (doc : id_field -> UserDoc) : M id_field :=
  fun w =>
    if mongo_up w then
      let oid := ObjectId (next_oid w) in
      if unique_email_index w
         && existsb (fun u => String.eqb (u_email u) (u_email (doc oid)))
                    (users_col w)
      then (w, Raise DuplicateKeyError)
      else (with_users (users_col w ++ [doc oid]) w, Ok oid)
    else (w, Raise ServerSelectionTimeoutError).

Definition create_user (name email hashed_password : string) : M id_field :=
  now <- utcnow ;;
  let doc := fun oid =>
    {| u_id := oid; u_name := name; u_email := email;
       u_password := hashed_password; u_created_at := now |} in
  inserted_id <- users_insert_one doc ;;
  ret (str_id inserted_id).

Definition ping : M bool := fun w => (w, Ok (mongo_up w)).

End db.

(** ** app.py *)

Module app.

(** A parsed JSON document, as [request.get_json] returns it. *)
#[local] Set Warnings "-register-all".
Inductive json : Type :=
| JNull
| JBool (b : bool)
| JNum (n : Z)
| JStr (s : string)
| JArr (items : list json)
| JObj (fields : list (string * json)).

(** Python truth value of a parsed JSON document. *)
Definition truthy (v : json) : bool :=
  match v with
  | JNull => false
  | JBool b => b
  | JNum n => negb (n =? 0)
  | JStr s => negb (pystr.is_empty s)
  | JArr l => match l with [] => false | _ => true end
  | JObj l => match l with [] => false | _ => true end
  end.

Fixpoint assoc {A} (key : string) (l : list (string * A)) : option A :=
  match l with
  | [] => None
  | (k, v) :: r => if String.eqb key k then Some v else assoc key r
  end.

(** [data.get(key, default)]: only a dictionary has the method. *)
Definition get (data : json) (key : string) (default : json) : result json :=
  match data with
  | JObj fields =>
      Ok (match assoc key fields with Some v => v | None => default end)
  | _ => Raise AttributeError
  end.

Inductive http_method : Type := GET | POST.

Record FileStorage : Type := {
  filename : string;
  stream : string }.

Record Request : Type := {
  method : http_method;
  files : list (string * FileStorage);   (* [request.files] *)
  get_json : option json }.              (* [request.get_json(silent=True)] *)

(** [request.files[key]] *)
Definition files_getitem (req : Request) (key : string) : M FileStorage :=
  match assoc key (files req) with
  | Some f => ret f
  | None => raise (BadRequestKeyError key)
  end.

(** [image.save(dst)] opens [dst] for writing and copies the stream.  A
    path with a trailing slash names a directory and cannot be opened;
    whether any other path can be opened (its parent exists, it is not
    itself a directory, it may be written) is for the file system of the
    world to say. *)
Definition save (image : FileStorage) (dst : string) : M unit :=
  fun w =>
    if pystr.endswith "/" dst then (w, Raise IsADirectoryError)
    else if can_open w dst then
      (with_files ((dst, stream image) :: fs_files w) w, Ok tt)
    else (w, Raise OSError).

(** The bodies the routes build. *)
Inductive body : Type :=
| json_failure (error : message)
| json_prediction (info : DiseaseInfo) (confidence : R)
| json_user_created (user_id : id_field)
| json_login (access_token : string) (id : id_field) (name email : string)
| html_submit (info : DiseaseInfo) (pred : Z)
| html_error_page.

Definition Response : Type := (body * Z)%type.

(** [jsonify({"success": False, "error": msg}), code] *)
Definition failure (msg : string) (code : Z) : Response :=
  (json_failure (Lit msg), code).

(** What the account routes take from outside the repository: the string
    methods [str.strip] and [str.lower] of Python, which work on Unicode
    text ([strip] removes every character that [str.isspace] accepts,
    [lower] follows the case mappings of the Unicode database), the
    extension object [bcrypt], and the token factory of
    [flask_jwt_extended].  Both [bcrypt] entry points may raise on text:
    [bcrypt.hashpw] rejects a password of more than 72 bytes with a
    [ValueError] from version 5 of the library on, and a stored hash that
    is no valid salt as well.  The two equations are the behaviour of the
    string methods on the empty string, which the routes rely on for the
    default value of a missing field. *)
Record Extensions : Type := {
  str_strip : string -> string;
  str_lower : string -> string;
  hash_of : string -> result string;
  check_of : string -> string -> result bool;
  create_access_token : id_field -> string;
  strip_empty : str_strip "" = "";
  lower_empty : str_lower "" = "" }.

(** [v.strip()]: only a string has the method. *)
Definition strip (x : Extensions) (v : json) : result string :=
  match v with
  | JStr s => Ok (str_strip x s)
  | _ => Raise AttributeError
  end.

(** [bcrypt.generate_password_hash(password)]: the extension encodes a
    string and hands it to [bcrypt.hashpw]; any other value reaches
    [bcrypt.hashpw] as it is and is rejected with a [TypeError]. *)
Definition generate_password_hash (x : Extensions) (password : json)
  : result string :=
  match password with
  | JStr s => hash_of x s
  | _ => Raise TypeError
  end.

(** [bcrypt.check_password_hash(pw_hash, password)]: the same encoding, and
    the same [TypeError] for a value that is no string. *)
Definition check_password_hash (x : Extensions) (pw_hash : string)
    (password : json) : result bool :=
  match password with
  | JStr s => check_of x pw_hash s
  | _ => Raise TypeError
  end.

(** The dispatcher of Flask around a view function, outside debug mode: a
    returned pair is the response; a [BadRequestKeyError] is an HTTP
    exception answered with 400; any other exception leaving the view is
    answered with 500. *)
Definition dispatch (view : M Response) (w : World) : World * Response :=
  match view w with
  | (w1, Ok r) => (w1, r)
  | (w1, Raise (BadRequestKeyError _)) => (w1, (html_error_page, 400))
  | (w1, Raise _) => (w1, (html_error_page, 500))
  end.

(** The [try]/[except] around [db.save_prediction] shared by both
    prediction routes. *)
Definition save_best_effort (image_filename : string) (info : DiseaseInfo)
    (confidence : R) : M unit :=
  try_except
    (db.save_prediction image_filename (info_disease_name info) confidence info
       ;;; ret tt)
    (fun e => print (WithExn "[MongoDB] Could not save prediction: " e)).

(** [/submit] *)
Definition submit (u : utils.Module_state) (req : Request) : M Response :=
  match method req with
  | POST =>
      image <- files_getitem req "image" ;;
      let file_path := pystr.os_path_join (utils.UPLOAD_DIR u) (filename image) in
      utils.ensure_upload_dir u ;;;
      save image file_path ;;;
      pc <- utils.predict_with_confidence u file_path ;;
      let '(pred, confidence) := pc in
      info <- lift (utils.get_disease_info u pred) ;;
      save_best_effort (filename image) info confidence ;;;
      ret (html_submit info pred, 200)
  | GET => raise TypeError   (* the view returns [None] *)
  end.

(** [/api/predict] *)
Definition api_predict (u : utils.Module_state) (req : Request) : M Response :=
  match assoc "image" (files req) with
  | None =>
      ret (failure "No image file provided. Send a file with key 'image'." 400)
  | Some image =>
      if String.eqb (filename image) "" then ret (failure "Empty filename." 400)
      else if negb (utils.allowed_file (filename image)) then
        ret (failure "Unsupported file type." 400)
      else
        try_except
          (utils.ensure_upload_dir u ;;;
           let file_path :=
             pystr.os_path_join (utils.UPLOAD_DIR u) (filename image) in
           save image file_path ;;;
           pc <- utils.predict_with_confidence u file_path ;;
           let '(pred, confidence) := pc in
           info <- lift (utils.get_disease_info u pred) ;;
           save_best_effort (filename image) info confidence ;;;
           ret (json_prediction info confidence, 200))
          (fun e => ret (json_failure (WithExn "" e), 500))
  end.

(** [/signup] *)
Definition signup (x : Extensions) (req : Request) : M Response :=
  match get_json req with
  | None => ret (failure "Request body must be JSON." 400)
  | Some data =>
      if negb (truthy data) then ret (failure "Request body must be JSON." 400)
      else
        name <- lift (utils.rbind (get data "name" (JStr "")) (strip x)) ;;
        email <- lift (utils.rbind (get data "email" (JStr "")) (strip x)) ;;
        let email := str_lower x email in
        password <- lift (get data "password" (JStr "")) ;;
        if pystr.is_empty name || pystr.is_empty email || negb (truthy password)
        then ret (failure "name, email, and password are required." 400)
        else
          existing <- db.find_user_by_email email ;;
          match existing with
          | Some _ => ret (failure "Email already registered." 409)
          | None =>
              hashed_pw <- lift (generate_password_hash x password) ;;
              user_id <- db.create_user name email hashed_pw ;;
              ret (json_user_created user_id, 201)
          end
  end.

(** [/login] *)
Definition login (x : Extensions) (req : Request) : M Response :=
  match get_json req with
  | None => ret (failure "Request body must be JSON." 400)
  | Some data =>
      if negb (truthy data) then ret (failure "Request body must be JSON." 400)
      else
        email <- lift (utils.rbind (get data "email" (JStr "")) (strip x)) ;;
        let email := str_lower x email in
        password <- lift (get data "password" (JStr "")) ;;
        if pystr.is_empty email || negb (truthy password)
        then ret (failure "email and password are required." 400)
        else
          user <- db.find_user_by_email email ;;
          match user with
          | None => ret (failure "Invalid email or password." 401)
          | Some user =>
              ok <- lift (check_password_hash x (u_password user) password) ;;
              if negb ok then ret (failure "Invalid email or password." 401)
              else
                let access_token := create_access_token x (str_id (u_id user)) in
                ret (json_login access_token (str_id (u_id user))
                       (u_name user) (u_email user), 200)
          end
  end.




End app.

(** ** The vocabulary of the properties *)

(** A file name with an extension, the text after its last dot, that is one
    of the allowed ones up to letter case. *)
Definition supported_extension (name : string) : Prop :=
  exists stem ext a,
    name = stem ++ "." ++ ext
    /\ pystr.contains "." ext = false
    /\ In a utils.ALLOWED
    /\ pystr.caseless ext a.

(** Position [i] holds the value [p], no entry of [xs] is larger, and every
    entry before position [i] is smaller: [i] is the arg-max of [xs], the
    first one if there are several. *)
Definition first_argmax (xs : list R) (i : nat) (p : R) : Prop :=
  nth_error xs i = Some p
  /\ (forall q, In q xs -> (q <= p)%R)
  /\ (forall j q, (j < i)%nat -> nth_error xs j = Some q -> (q < p)%R).

(** A real number with at most two decimal places that is nearest to [x]. *)
Definition rounded_to_2_places (x y : R) : Prop :=
  exists z : Z,
    y = (IZR z / 100)%R
    /\ forall z' : Z, (Rabs (x - y) <= Rabs (x - IZR z' / 100))%R.

(** The dictionary [get_disease_info] is meant to build from row [d] of the
    disease table and row [s] of the supplement table. *)
Definition merged (d : utils.DiseaseRow) (s : utils.SupplementRow)
  : DiseaseInfo :=
  {| info_disease_name := utils.str (utils.disease_name d);
     info_description := utils.str (utils.description d);
     info_possible_steps := utils.str (utils.Possible_Steps d);
     info_disease_image_url := utils.str (utils.image_url d);
     info_supplement :=
       {| sup_name := utils.str (utils.supplement_name s);
          sup_image_url := utils.str (utils.supplement_image s);
          sup_buy_link := utils.str (utils.buy_link s) |} |}.

(** Document [a] may be listed before document [b]: both are predictions
    and [a] is no older than [b]; or [a] is a prediction and [b] a document
    of [/test-db], whose [created_at] is text; or both are such documents
    and the text of [a] is not below the text of [b]. *)
Inductive not_older : document -> document -> Prop :=
| not_older_dates a b :
    p_created_at b <= p_created_at a ->
    not_older (Prediction a) (Prediction b)
| not_older_date_text a t :
    not_older (Prediction a) (ConnectionTest t)
| not_older_texts t1 t2 :
    String.leb (t_created_at t2) (t_created_at t1) = true ->
    not_older (ConnectionTest t1) (ConnectionTest t2).

(** A list of documents ordered newest first. *)
Definition newest_first (l : list document) : Prop :=
  StronglySorted not_older l.

(** A document that the sort places strictly after a prediction made at
    time [t]. *)
Definition older_than (t : Z) (d : document) : Prop :=
  match d with
  | Prediction p => p_created_at p < t
  | ConnectionTest _ => True
  end.

(** The fields of a JSON body that is an object, and those that are text. *)
Definition json_field (req : app.Request) (key : string) : option app.json :=
  match app.get_json req with
  | Some (app.JObj fields) => app.assoc key fields
  | _ => None
  end.

Definition text_field (req : app.Request) (key : string) : option string :=
  match json_field req key with
  | Some (app.JStr s) => Some s
  | _ => None
  end.

(** The address under which an account is stored and looked up. *)
Definition normalized (x : app.Extensions) (email : string) : string :=
  app.str_lower x (app.str_strip x email).

(** Text that [str.strip] reduces to nothing: white space only. *)
Definition white (x : app.Extensions) (s : string) : Prop :=
  app.str_strip x s = "".

(** Two addresses that differ only in surrounding white space or in the
    case of letters of the ASCII alphabet. *)
Definition same_address (x : app.Extensions) (e1 e2 : string) : Prop :=
  exists pre1 core1 post1 pre2 core2 post2,
    e1 = pre1 ++ core1 ++ post1
    /\ e2 = pre2 ++ core2 ++ post2
    /\ white x pre1 /\ white x post1
    /\ white x pre2 /\ white x post2
    /\ pystr.caseless core1 core2.

(** The two facts about [str.strip] and [str.lower] behind the
    normalization of addresses: white space around a text does not change
    what [strip] leaves of it, and two texts that differ in the case of
    ASCII letters only are stripped and lower-cased to the same text. *)
Definition strip_ignores_white (x : app.Extensions) : Prop :=
  forall pre s post,
    white x pre -> white x post ->
    app.str_strip x (pre ++ s ++ post) = app.str_strip x s.

Definition lower_folds_ascii (x : app.Extensions) : Prop :=
  forall s t, pystr.caseless s t -> normalized x s = normalized x t.

(** Two worlds with the same database and console: what the file system
    and the classifier leave alone. *)
Definition same_store (w1 w2 : World) : Prop :=
  mongo_up w1 = mongo_up w2
  /\ unique_email_index w1 = unique_email_index w2
  /\ predictions_col w1 = predictions_col w2
  /\ users_col w1 = users_col w2
  /\ next_oid w1 = next_oid w2
  /\ clock w1 = clock w2
  /\ stdout w1 = stdout w2.

(** The record [db.save_prediction] builds in world [w]. *)
Definition prediction_doc (w : World) (name : string) (c : R)
    (info : DiseaseInfo) : document :=
  Prediction
  {| p_id := ObjectId (next_oid w);
     p_image_filename := name;
     p_disease_name := info_disease_name info;
     p_confidence := c;
     p_description := info_description info;
     p_possible_steps := info_possible_steps info;
     p_supplement := info_supplement info;
     p_created_at := clock w |}.

(** The account [db.create_user] builds in world [w]. *)
Definition user_doc (w : World) (name email hashed : string) : UserDoc :=
  {| u_id := ObjectId (next_oid w); u_name := name; u_email := email;
     u_password := hashed; u_created_at := clock w |}.

(** No two accounts share an address. *)
Definition unique_emails (w : World) : Prop :=
  NoDup (map u_email (users_col w)).

(** ** Sample data *)

Module sample.

Definition row : utils.DiseaseRow :=
  {| utils.disease_name := utils.CStr "Apple : Scab";
     utils.description := utils.CStr "Dark lesions on the leaves.";
     utils.Possible_Steps := utils.CStr "Remove the fallen leaves.";
     utils.image_url := utils.CNaN |}.

Definition srow : utils.SupplementRow :=
  {| utils.supplement_name := utils.CStr "Fungicide";
     utils.supplement_image := utils.CStr "fungicide.jpg";
     utils.buy_link := utils.CStr "https://shop.example/fungicide" |}.

(** A picture of three bands. *)
Definition rgb : utils.Picture :=
  {| utils.picture_bands := utils.three_bands;
     utils.picture_values := [0%R; 0%R; 0%R] |}.

(** A decoder for the runs below: the bytes [RGBA] are a picture with an
    alpha band, the bytes [grey] a picture of one band, all others a
    picture of three bands. *)
Definition open_image (bytes : string) : result utils.Picture :=
  if String.eqb bytes "RGBA" then
    Ok {| utils.picture_bands := utils.four_bands;
          utils.picture_values := [0%R; 0%R; 0%R; 0%R] |}
  else if String.eqb bytes "grey" then
    Ok {| utils.picture_bands := utils.one_band;
          utils.picture_values := [0%R] |}
  else Ok rgb.

(** A module state with full tables and a network whose 39 logits are all
    equal, on exact arithmetic. *)
Definition u0 : utils.Module_state :=
  {| utils.BASE_DIR := "/srv/app";
     utils.disease_info := repeat row 39;
     utils.supplement_info := repeat srow 39;
     utils.image_open := open_image;
     utils.model := fun _ => Ok (repeat 0%R 39);
     utils.kernels := exact.kernels |}.

(** The module state [import_module] builds from a disease table of one row
    and an empty supplement table. *)
Definition u_short : utils.Module_state :=
  {| utils.BASE_DIR := "/srv/app";
     utils.disease_info := [row];
     utils.supplement_info := [];
     utils.image_open := open_image;
     utils.model := fun _ => Ok (repeat 0%R 39);
     utils.kernels := exact.kernels |}.

(** Extensions for the runs below: the string methods restricted to
    ASCII, which is what Python computes on the texts of these runs, and a
    stand-in for [bcrypt] that rejects what the library rejects. *)
Definition x0 : app.Extensions :=
  {| app.str_strip := pystr.strip;
     app.str_lower := pystr.lower;
     app.hash_of := fun p =>
       if (72 <? String.length p)%nat then Raise ValueError
       else Ok ("$2b$" ++ p);
     app.check_of := fun h p =>
       if (72 <? String.length p)%nat then Raise ValueError
       else Ok (String.eqb h ("$2b$" ++ p));
     app.create_access_token := fun _ => "token";
     app.strip_empty := eq_refl;
     app.lower_empty := eq_refl |}.

Definition ann : UserDoc :=
  {| u_id := ObjectId 0; u_name := "Ann"; u_email := "ann@example.org";
     u_password := "$2b$secret"; u_created_at := 1700000000 |}.

Definition old_doc : document :=
  Prediction
  {| p_id := ObjectId 1; p_image_filename := "leaf.jpg";
     p_disease_name := "Apple : Scab"; p_confidence := 0%R;
     p_description := ""; p_possible_steps := "";
     p_supplement := {| sup_name := ""; sup_image_url := ""; sup_buy_link := "" |};
     p_created_at := 1700000100 |}.

(** A later prediction, and a document as [/test-db] writes it. *)
Definition recent_doc : document :=
  Prediction
  {| p_id := ObjectId 5; p_image_filename := "vine.png";
     p_disease_name := "Grape : Black Rot"; p_confidence := 0%R;
     p_description := ""; p_possible_steps := "";
     p_supplement := {| sup_name := ""; sup_image_url := ""; sup_buy_link := "" |};
     p_created_at := 1700000300 |}.

Definition probe_doc : document :=
  ConnectionTest
  {| t_id := ObjectId 3; t_type := "connection_test";
     t_message := "Hello from PlantGuard AI!";
     t_created_at := "2023-11-14T22:18:40.250000+00:00" |}.

(** The files that can be opened for writing in the sample worlds: the
    directories of the other paths do not exist. *)
Definition openable (path : string) : bool :=
  pystr.str_in path
    ["/srv/app/static/uploads/leaf.jpg"; "/srv/app/static/uploads/notes.txt";
     "/srv/app/templates/home.png"].

(** A world with one account and one stored prediction. *)
Definition w0 : World :=
  {| dirs := []; fs_files := []; disk_ok := true; can_open := openable;
     mongo_up := true; tie_break := fun _ _ => true;
     unique_email_index := true; predictions_col := [old_doc];
     users_col := [ann]; next_oid := 2; clock := 1700000200;
     forward_passes := []; stdout := [] |}.

(** The same world with three documents in the predictions: the old
    prediction, then a document of [/test-db], then a later prediction. *)
Definition w_history : World :=
  with_predictions [old_doc; probe_doc; recent_doc] w0.

(** The sample world with the old prediction and a document of
    [/test-db]. *)
Definition w_pair : World := with_predictions [old_doc; probe_doc] w0.

(** The same world with the database unreachable. *)
Definition w_down : World :=
  {| dirs := []; fs_files := []; disk_ok := true; can_open := openable;
     mongo_up := false; tie_break := fun _ _ => true;
     unique_email_index := true; predictions_col := [old_doc];
     users_col := [ann]; next_oid := 2; clock := 1700000200;
     forward_passes := []; stdout := [] |}.

(** The same two worlds after the upload of [leaf.jpg]. *)
Definition leaf_path : string := "/srv/app/static/uploads/leaf.jpg".

Definition w_leaf : World := with_files [(leaf_path, "bytes")] w0.

Definition w_down_leaf : World :=
  with_files [(leaf_path, "bytes")] (with_dirs ["/srv/app/static/uploads"] w_down).

(** What the classifier reports for 39 equal logits: one part in 39, as a
    percentage. *)
Definition uniform_confidence : R :=
  exact.round (exp 0 / exact.sum (map exp (repeat 0%R 39)) * 100)%R 2.

(** A multipart request with one file under the key [image]. *)
Definition upload (name : string) : app.Request :=
  {| app.method := app.POST;
     app.files := [("image", {| app.filename := name; app.stream := "bytes" |})];
     app.get_json := None |}.

Definition upload_of (name bytes : string) : app.Request :=
  {| app.method := app.POST;
     app.files := [("image", {| app.filename := name; app.stream := bytes |})];
     app.get_json := None |}.

(** A request with a JSON object as body. *)
Definition post_json (fields : list (string * app.json)) : app.Request :=
  {| app.method := app.POST; app.files := [];
     app.get_json := Some (app.JObj fields) |}.

(** Requests to [/signup] and [/login]. *)
Definition signup_req (name email password : string) : app.Request :=
  post_json [("name", app.JStr name); ("email", app.JStr email);
             ("password", app.JStr password)].

Definition login_req (email password : string) : app.Request :=
  post_json [("email", app.JStr email); ("password", app.JStr password)].

(** The account a signup of Bob creates in [w0], and the world after it. *)
Definition bob : UserDoc :=
  {| u_id := ObjectId 2; u_name := "Bob"; u_email := "bob@example.org";
     u_password := "$2b$hunter2"; u_created_at := 1700000200 |}.

Definition w_bob : World := with_users [ann; bob] w0.

(** A password of 73 characters. *)
Definition long_password : string :=
  "0123456789012345678901234567890123456789012345678901234567890123456789012".

(** An address with the letter sharp s, as the two bytes of its UTF-8
    encoding, the account a signup of Eva under that address creates in
    [w0], and the world after it. *)
Definition sharp_s : string :=
  String (ascii_of_nat 195) (String (ascii_of_nat 159) "").

Definition strasse : string := "stra" ++ sharp_s ++ "e@example.org".

Definition eva : UserDoc :=
  {| u_id := ObjectId 2; u_name := "Eva"; u_email := strasse;
     u_password := "$2b$pw"; u_created_at := 1700000200 |}.

Definition w_eva : World := with_users [ann; eva] w0.

End sample.

(** * Properties *)

(** ** Facts about Python strings *)

Section StringFacts.

Import pystr.

Lemma N_of_ascii_bound (c : ascii) : (N_of_ascii c < 256)%N.
Proof.
  destruct c as [[] [] [] [] [] [] [] []]; vm_compute; reflexivity.
Qed.

Lemma N_of_lower_char (c : ascii) :
  N_of_ascii (lower_char c)
  = if is_upper c then (N_of_ascii c + 32)%N else N_of_ascii c.
Proof.
  unfold lower_char. destruct (is_upper c) eqn:E; [|reflexivity].
  apply N_ascii_embedding.
  unfold is_upper in E. apply andb_true_iff in E as [_ E].
  apply N.leb_le in E. lia.
Qed.

Lemma is_upper_range (c : ascii) :
  is_upper c = true <-> (65 <= N_of_ascii c <= 90)%N.
Proof.
  unfold is_upper. rewrite andb_true_iff, !N.leb_le. tauto.
Qed.

Lemma N_of_ascii_inj (c d : ascii) : N_of_ascii c = N_of_ascii d -> c = d.
Proof.
  intros H. rewrite <- (ascii_N_embedding c), <- (ascii_N_embedding d).
  now rewrite H.
Qed.

Lemma same_letter_lower (c d : ascii) :
  same_letter c d <-> lower_char c = lower_char d.
Proof.
  split.
  - intros [-> | [[U E] | [U E]]]; [reflexivity | |];
      apply N_of_ascii_inj; rewrite !N_of_lower_char, U;
      pose proof (proj1 (is_upper_range _) U) as B.
    + destruct (is_upper d) eqn:Ud; [|lia].
      apply is_upper_range in Ud. lia.
    + destruct (is_upper c) eqn:Uc; [|lia].
      apply is_upper_range in Uc. lia.
  - intros H. apply (f_equal N_of_ascii) in H. rewrite !N_of_lower_char in H.
    unfold same_letter.
    destruct (is_upper c) eqn:Uc, (is_upper d) eqn:Ud.
    + left. apply N_of_ascii_inj. lia.
    + right; left. split; [reflexivity | lia].
    + right; right. split; [reflexivity | lia].
    + left. now apply N_of_ascii_inj.
Qed.

Lemma caseless_lower (s t : string) : caseless s t <-> lower s = lower t.
Proof.
  split.
  - induction 1 as [| c d s t L _ IH]; [reflexivity|].
    simpl. apply same_letter_lower in L. now rewrite L, IH.
  - revert t. induction s as [| c s IH]; intros [| d t] H; simpl in H;
      try discriminate; [constructor|].
    injection H as Hc Hs. constructor; [now apply same_letter_lower | auto].
Qed.

Lemma lower_char_space (c : ascii) : is_space (lower_char c) = is_space c.
Proof.
  unfold is_space. rewrite N_of_lower_char.
  destruct (is_upper c) eqn:U; [|reflexivity].
  apply is_upper_range in U.
  repeat match goal with
         | |- context [N.leb ?a ?b] => 
             let E := fresh in destruct (N.leb_spec a b) as [E|E]
         end; simpl; try reflexivity; lia.
Qed.

Lemma lower_lstrip (s : string) : lower (lstrip s) = lstrip (lower s).
Proof.
  induction s as [| c s IH]; [reflexivity|].
  simpl. rewrite lower_char_space.
  destruct (is_space c); [exact IH | reflexivity].
Qed.

Lemma lower_rstrip (s : string) : lower (rstrip s) = rstrip (lower s).
Proof.
  induction s as [| c s IH]; [reflexivity|].
  simpl. rewrite <- IH, lower_char_space.
  destruct (rstrip s); simpl; [destruct (is_space c)|]; reflexivity.
Qed.

Lemma lower_strip (s : string) : lower (strip s) = strip (lower s).
Proof. unfold strip. now rewrite lower_rstrip, lower_lstrip. Qed.

Lemma lstrip_blank (s : string) : blank s -> lstrip s = "".
Proof.
  induction s as [| c s IH]; [reflexivity|].
  simpl. intros [-> B]. auto.
Qed.

Lemma lstrip_app_blank (pre s : string) :
  blank pre -> lstrip (pre ++ s) = lstrip s.
Proof.
  induction pre as [| c pre IH]; [reflexivity|].
  simpl. intros [-> B]. auto.
Qed.

Lemma rstrip_blank (s : string) : blank s -> rstrip s = "".
Proof.
  induction s as [| c s IH]; [reflexivity|].
  simpl. intros [-> B]. now rewrite (IH B).
Qed.

Lemma rstrip_app_blank (s post : string) :
  blank post -> rstrip (s ++ post) = rstrip s.
Proof.
  intros B. induction s as [| c s IH]; simpl.
  - now apply rstrip_blank.
  - now rewrite IH.
Qed.

Lemma lstrip_rstrip_app (s post : string) :
  blank post -> rstrip (lstrip (s ++ post)) = rstrip (lstrip s).
Proof.
  intros B. induction s as [| c s IH]; simpl.
  - now rewrite (lstrip_blank _ B).
  - destruct (is_space c); [exact IH|].
    change (String c (s ++ post)) with (String c s ++ post).
    now apply rstrip_app_blank.
Qed.

(** Surrounding white space does not survive [strip]. *)
Lemma strip_surrounded (pre s post : string) :
  blank pre -> blank post -> strip (pre ++ s ++ post) = strip s.
Proof.
  intros Bpre Bpost. unfold strip.
  rewrite lstrip_app_blank by assumption.
  now apply lstrip_rstrip_app.
Qed.

Lemma rstrip_empty_blank (s : string) : rstrip s = "" -> blank s.
Proof.
  induction s as [| c s IH]; simpl; [auto|].
  destruct (rstrip s); [|discriminate].
  destruct (is_space c) eqn:Ec; [|discriminate]. auto.
Qed.

Lemma lstrip_blank_inv (s : string) : blank (lstrip s) -> blank s.
Proof.
  induction s as [| c s IH]; simpl; [auto|].
  destruct (is_space c) eqn:Ec; [auto|]. simpl. now rewrite Ec.
Qed.

Lemma strip_empty_blank (s : string) : strip s = "" -> blank s.
Proof.
  intros H. apply lstrip_blank_inv, rstrip_empty_blank, H.
Qed.

Lemma rsplit1_none (sep : ascii) (s : string) :
  rsplit1 sep s = None <-> contains sep s = false.
Proof.
  induction s as [| c s IH]; simpl; [tauto|].
  rewrite (Ascii.eqb_sym sep c).
  destruct (rsplit1 sep s) as [[h t]|].
  - split; [discriminate|].
    intros H. apply orb_false_iff in H as [_ H].
    apply IH in H. discriminate.
  - rewrite (proj1 IH eq_refl), orb_false_r.
    destruct (Ascii.eqb c sep); split; congruence.
Qed.

Lemma rsplit1_sound (sep : ascii) (s h t : string) :
  rsplit1 sep s = Some (h, t) ->
  s = h ++ String sep t /\ contains sep t = false.
Proof.
  revert h t. induction s as [| c s IH]; intros h t; simpl; [discriminate|].
  destruct (rsplit1 sep s) as [[h' t']|] eqn:E.
  - intros H. injection H as <- <-.
    destruct (IH h' t' eq_refl) as [-> Ht]. now split.
  - destruct (Ascii.eqb_spec c sep) as [-> | _]; [|discriminate].
    intros H. injection H as <- <-. split; [reflexivity|].
    now apply rsplit1_none.
Qed.

Lemma rsplit1_complete (sep : ascii) (h t : string) :
  contains sep t = false -> rsplit1 sep (h ++ String sep t) = Some (h, t).
Proof.
  intros Ht. induction h as [| c h IH]; simpl.
  - rewrite (proj2 (rsplit1_none sep t) Ht). now rewrite Ascii.eqb_refl.
  - now rewrite IH.
Qed.

Lemma str_in_In (x : string) (xs : list string) :
  str_in x xs = true <-> In x xs.
Proof.
  induction xs as [| y xs IH]; simpl; [split; [discriminate | tauto]|].
  rewrite orb_true_iff, IH, String.eqb_eq. split; intros [H|H]; auto.
Qed.

End StringFacts.

(** ** Upload validation of [/api/predict] *)

Section UploadValidation.

Import pystr.

Lemma ALLOWED_lower (a : string) : In a utils.ALLOWED -> lower a = a.
Proof.
  simpl. intros [<- | [<- | [<- | [<- | [<- | []]]]]]; reflexivity.
Qed.

(** [allowed_file] accepts exactly the names with a supported extension. *)
Lemma allowed_file_spec (name : string) :
  utils.allowed_file name = true <-> supported_extension name.
Proof.
  unfold utils.allowed_file, supported_extension, rsplit1_last.
  rewrite andb_true_iff, str_in_In. split.
  - intros [Hdot Hin].
    destruct (rsplit1 "." name) as [[h t]|] eqn:E.
    + apply rsplit1_sound in E as [-> Ht].
      exists h, t, (lower t). repeat split; auto.
      apply caseless_lower. symmetry. now apply ALLOWED_lower.
    + apply rsplit1_none in E. congruence.
  - intros (stem & ext & a & -> & Hext & Ha & Hc).
    change (stem ++ "." ++ ext) with (stem ++ String "." ext).
    rewrite (rsplit1_complete _ stem ext Hext). split.
    + destruct (contains "." (stem ++ String "." ext)) eqn:C; [reflexivity|].
      apply rsplit1_none in C.
      rewrite (rsplit1_complete _ stem ext Hext) in C. discriminate.
    + apply caseless_lower in Hc. rewrite Hc, ALLOWED_lower; assumption.
Qed.

Lemma api_predict_rejected (u : utils.Module_state) (req : app.Request)
    (w : World) (image : app.FileStorage) :
  app.assoc "image" (app.files req) = Some image ->
  utils.allowed_file (app.filename image) = false ->
  app.dispatch (app.api_predict u req) w
  = (w, app.failure
          (if String.eqb (app.filename image) "" then "Empty filename."
           else "Unsupported file type.") 400).
Proof.
  intros Himg Hbad. unfold app.dispatch, app.api_predict.
  rewrite Himg, Hbad.
  destruct (String.eqb (app.filename image) ""); reflexivity.
Qed.

(** C3: [/api/predict] runs the model on an upload only if the file name has
    an extension, the text after its last dot, that is one of png, jpg, jpeg,
    webp and bmp up to letter case; every other name is answered with a 400
    failure and leaves the world as it was: nothing is stored and no forward
    pass takes place. *)
Theorem api_predict_extension_gate (u : utils.Module_state)
    (req : app.Request) (w : World) (image : app.FileStorage) :
  app.assoc "image" (app.files req) = Some image ->
  (utils.allowed_file (app.filename image) = true
   <-> supported_extension (app.filename image))
  /\ (~ supported_extension (app.filename image) ->
      app.dispatch (app.api_predict u req) w
      = (w, app.failure
              (if String.eqb (app.filename image) "" then "Empty filename."
               else "Unsupported file type.") 400))
  /\ (forward_passes (fst (app.dispatch (app.api_predict u req) w))
      <> forward_passes w ->
      supported_extension (app.filename image)).
Proof.
  intros Himg. split; [apply allowed_file_spec|].
  assert (~ supported_extension (app.filename image) ->
          utils.allowed_file (app.filename image) = false) as Hno.
  { intros Hn. destruct (utils.allowed_file (app.filename image)) eqn:E;
      [|reflexivity].
    exfalso. now apply Hn, allowed_file_spec. }
  split.
  - intros Hn. now apply api_predict_rejected, Hno.
  - intros Hrun.
    destruct (utils.allowed_file (app.filename image)) eqn:E.
    + now apply allowed_file_spec.
    + exfalso. apply Hrun.
      now rewrite (api_predict_rejected u req w image Himg E).
Qed.

End UploadValidation.

(** The concrete rejection of a text file. *)
Lemma api_predict_extension_gate_witness :
  app.dispatch (app.api_predict sample.u0 (sample.upload "notes.txt")) sample.w0
  = (sample.w0, app.failure "Unsupported file type." 400).
Proof.
  destruct (api_predict_extension_gate sample.u0 (sample.upload "notes.txt")
              sample.w0 _ eq_refl) as (Hiff & Hrej & _).
  apply Hrej. intros H. apply Hiff in H. discriminate H.
Defined.

(** ** The catalog lookup *)

Section Catalog.

Lemma getitem_column {Row A} (frame : list Row) (col : Row -> A)
    (index : Z) (r : Row) :
  0 <= index ->
  nth_error frame (Z.to_nat index) = Some r ->
  utils.getitem (utils.column frame col) index = Ok (col r).
Proof.
  intros Hpos Hnth. unfold utils.getitem, utils.column.
  rewrite length_map, nth_error_map, Hnth. simpl.
  assert (Z.to_nat index < List.length frame)%nat as Hlt
      by (apply nth_error_Some; congruence).
  destruct (Z.leb_spec 0 index); [|lia].
  destruct (Z.ltb_spec index (Z.of_nat (List.length frame))); [|lia].
  reflexivity.
Qed.

Lemma getitem_out_of_range {A} (series : list A) (index : Z) :
  index < 0 \/ Z.of_nat (List.length series) <= index ->
  utils.getitem series index = Raise (KeyError index).
Proof.
  intros H. unfold utils.getitem.
  destruct (Z.leb_spec 0 index); destruct (Z.ltb_spec index (Z.of_nat (List.length series)));
    simpl; try reflexivity; lia.
Qed.

Lemma get_disease_info_found (u : utils.Module_state) (index : Z)
    (d : utils.DiseaseRow) (s : utils.SupplementRow) :
  0 <= index ->
  nth_error (utils.disease_info u) (Z.to_nat index) = Some d ->
  nth_error (utils.supplement_info u) (Z.to_nat index) = Some s ->
  utils.get_disease_info u index = Ok (merged d s).
Proof.
  intros Hpos Hd Hs. unfold utils.get_disease_info.
  rewrite !(getitem_column _ _ index d Hpos Hd). simpl.
  rewrite !(getitem_column _ _ index s Hpos Hs). reflexivity.
Qed.

(** A class index outside either table is a [KeyError]. *)
Lemma get_disease_info_missing (u : utils.Module_state) (index : Z) :
  index < 0
  \/ Z.of_nat (Nat.min (List.length (utils.disease_info u))
                       (List.length (utils.supplement_info u))) <= index ->
  utils.get_disease_info u index = Raise (KeyError index).
Proof.
  intros H. unfold utils.get_disease_info.
  destruct (Z_lt_le_dec index 0) as [Hneg | Hpos].
  { rewrite getitem_out_of_range; [reflexivity | now left]. }
  destruct (Z_lt_le_dec index (Z.of_nat (List.length (utils.disease_info u))))
    as [Hin | Hout].
  - destruct (nth_error (utils.disease_info u) (Z.to_nat index)) as [d|] eqn:Hd.
    + rewrite !(getitem_column _ _ index d Hpos Hd). simpl.
      rewrite getitem_out_of_range; [reflexivity|].
      right. unfold utils.column. rewrite length_map. lia.
    + apply nth_error_None in Hd. lia.
  - rewrite getitem_out_of_range; [reflexivity|].
    right. unfold utils.column. now rewrite length_map.
Qed.

(** C2: with both tables holding one row per class, the lookup of a class
    index between 0 and 38 returns the record merged from row [index] of the
    two tables, and the lookup of any other index, 39 and -1 among them,
    fails with a [KeyError] and returns no record. *)
Theorem get_disease_info_range (u : utils.Module_state) (index : Z) :
  List.length (utils.disease_info u) = utils.num_classes ->
  List.length (utils.supplement_info u) = utils.num_classes ->
  (0 <= index <= 38 ->
   exists d s,
     nth_error (utils.disease_info u) (Z.to_nat index) = Some d
     /\ nth_error (utils.supplement_info u) (Z.to_nat index) = Some s
     /\ utils.get_disease_info u index = Ok (merged d s))
  /\ (index < 0 \/ 38 < index ->
      utils.get_disease_info u index = Raise (KeyError index)).
Proof.
  unfold utils.num_classes. intros Ld Ls. split.
  - intros Hi.
    destruct (nth_error (utils.disease_info u) (Z.to_nat index)) as [d|] eqn:Hd;
      [| apply nth_error_None in Hd; lia].
    destruct (nth_error (utils.supplement_info u) (Z.to_nat index)) as [s|] eqn:Hs;
      [| apply nth_error_None in Hs; lia].
    exists d, s. repeat split. apply get_disease_info_found; [lia | auto ..].
  - intros Hi. apply get_disease_info_missing. rewrite Ld, Ls. simpl. lia.
Qed.

Lemma get_disease_info_range_witness :
  utils.get_disease_info sample.u0 7 = Ok (merged sample.row sample.srow)
  /\ utils.get_disease_info sample.u0 39 = Raise (KeyError 39)
  /\ utils.get_disease_info sample.u0 (-1) = Raise (KeyError (-1)).
Proof.
  pose proof (get_disease_info_range sample.u0) as H.
  split; [|split].
  - destruct (proj1 (H 7 eq_refl eq_refl)) as (d & s & Hd & Hs & Hr); [lia|].
    simpl in Hd, Hs. injection Hd as <-. injection Hs as <-. exact Hr.
  - apply (H 39 eq_refl eq_refl). right. lia.
  - apply (H (-1) eq_refl eq_refl). left. lia.
Defined.

End Catalog.

(** ** The prediction routes *)

Section PredictionRoutes.

Variable u : utils.Module_state.

(** The best-effort write never raises: it stores the record, or prints the
    exception of the failed write. *)
Lemma save_best_effort_run (name : string) (info : DiseaseInfo) (c : R)
    (w : World) :
  match db.save_prediction name (info_disease_name info) c info w with
  | (w1, Ok _) => app.save_best_effort name info c w = (w1, Ok tt)
  | (w1, Raise e) =>
      app.save_best_effort name info c w
      = print (WithExn "[MongoDB] Could not save prediction: " e) w1
  end.
Proof.
  cbv beta delta [app.save_best_effort try_except bind].
  destruct (db.save_prediction name (info_disease_name info) c info w)
    as [w1 [oid | e]]; reflexivity.
Qed.

Lemma save_best_effort_ok (name : string) (info : DiseaseInfo) (c : R)
    (w : World) :
  snd (app.save_best_effort name info c w) = Ok tt.
Proof.
  pose proof (save_best_effort_run name info c w) as H.
  destruct (db.save_prediction name (info_disease_name info) c info w)
    as [w1 [oid | e]]; now rewrite H.
Qed.

(** The steps of [/api/predict] on a validated upload, up to the catalog
    lookup. *)
Lemma api_predict_steps (req : app.Request) (image : app.FileStorage)
    (w w1 w2 w3 : World) (pred : Z) (confidence : R) :
  app.assoc "image" (app.files req) = Some image ->
  app.filename image <> "" ->
  utils.allowed_file (app.filename image) = true ->
  utils.ensure_upload_dir u w = (w1, Ok tt) ->
  app.save image
    (pystr.os_path_join (utils.UPLOAD_DIR u) (app.filename image)) w1
  = (w2, Ok tt) ->
  utils.predict_with_confidence u
    (pystr.os_path_join (utils.UPLOAD_DIR u) (app.filename image)) w2
  = (w3, Ok (pred, confidence)) ->
  app.dispatch (app.api_predict u req) w
  = match utils.get_disease_info u pred with
    | Ok info =>
        (fst (app.save_best_effort (app.filename image) info confidence w3),
         (app.json_prediction info confidence, 200))
    | Raise e => (w3, (app.json_failure (WithExn "" e), 500))
    end.
Proof.
  intros Himg Hname Hok Hdir Hsave Hpred.
  unfold app.dispatch, app.api_predict. rewrite Himg, Hok.
  apply String.eqb_neq in Hname. rewrite Hname. simpl.
  unfold try_except, bind. rewrite Hdir, Hsave, Hpred. unfold lift.
  destruct (utils.get_disease_info u pred) as [info | e]; [|reflexivity].
  pose proof (save_best_effort_ok (app.filename image) info confidence w3) as T.
  destruct (app.save_best_effort (app.filename image) info confidence w3)
    as [w4 r]. simpl in T. subst r. reflexivity.
Qed.

(** C4: when a request passes the upload validation and the inference and
    the catalog lookup succeed, [/api/predict] answers 200 with the
    prediction, whether the write of the prediction record succeeds or
    raises; a write that raises leaves the collection as it was and puts
    one line with its exception on the console. *)
Theorem api_predict_survives_failed_write (req : app.Request)
    (image : app.FileStorage) (w w1 w2 w3 : World) (pred : Z)
    (confidence : R) (info : DiseaseInfo) :
  app.assoc "image" (app.files req) = Some image ->
  app.filename image <> "" ->
  utils.allowed_file (app.filename image) = true ->
  utils.ensure_upload_dir u w = (w1, Ok tt) ->
  app.save image
    (pystr.os_path_join (utils.UPLOAD_DIR u) (app.filename image)) w1
  = (w2, Ok tt) ->
  utils.predict_with_confidence u
    (pystr.os_path_join (utils.UPLOAD_DIR u) (app.filename image)) w2
  = (w3, Ok (pred, confidence)) ->
  utils.get_disease_info u pred = Ok info ->
  snd (app.dispatch (app.api_predict u req) w)
  = (app.json_prediction info confidence, 200)
  /\ forall wf e,
       db.save_prediction (app.filename image) (info_disease_name info)
         confidence info w3 = (wf, Raise e) ->
       let w' := fst (app.dispatch (app.api_predict u req) w) in
       predictions_col w' = predictions_col w3
       /\ stdout w'
          = (stdout w3 ++ [WithExn "[MongoDB] Could not save prediction: " e])%list.
Proof.
  intros Himg Hname Hok Hdir Hsave Hpred Hinfo.
  rewrite (api_predict_steps req image w w1 w2 w3 pred confidence
             Himg Hname Hok Hdir Hsave Hpred), Hinfo.
  split; [reflexivity|].
  intros wf e Hfail. simpl.
  pose proof (save_best_effort_run (app.filename image) info confidence w3) as R.
  rewrite Hfail in R. rewrite R.
  revert Hfail. unfold db.save_prediction, bind, db.utcnow,
    db.predictions_insert_one.
  destruct (mongo_up w3); [discriminate|].
  intros H. injection H as <- _. split; reflexivity.
Qed.

(** A class index outside the catalog reaches the client of [/api/predict]
    as a 500 answer of that request. *)
Lemma api_predict_unknown_class (req : app.Request)
    (image : app.FileStorage) (w w1 w2 w3 : World) (pred : Z)
    (confidence : R) (e : exn) :
  app.assoc "image" (app.files req) = Some image ->
  app.filename image <> "" ->
  utils.allowed_file (app.filename image) = true ->
  utils.ensure_upload_dir u w = (w1, Ok tt) ->
  app.save image
    (pystr.os_path_join (utils.UPLOAD_DIR u) (app.filename image)) w1
  = (w2, Ok tt) ->
  utils.predict_with_confidence u
    (pystr.os_path_join (utils.UPLOAD_DIR u) (app.filename image)) w2
  = (w3, Ok (pred, confidence)) ->
  utils.get_disease_info u pred = Raise e ->
  app.dispatch (app.api_predict u req) w
  = (w3, (app.json_failure (WithExn "" e), 500)).
Proof.
  intros Himg Hname Hok Hdir Hsave Hpred Hinfo.
  now rewrite (api_predict_steps req image w w1 w2 w3 pred confidence
                 Himg Hname Hok Hdir Hsave Hpred), Hinfo.
Qed.

(** [/api/predict] answers a request without a file, or with a file of
    empty name, with a 400 failure and leaves the world as it was. *)
Lemma api_predict_missing_file (req : app.Request) (w : World) :
  match app.assoc "image" (app.files req) with
  | None =>
      app.dispatch (app.api_predict u req) w
      = (w, app.failure
              "No image file provided. Send a file with key 'image'." 400)
  | Some image =>
      app.filename image = "" ->
      app.dispatch (app.api_predict u req) w
      = (w, app.failure "Empty filename." 400)
  end.
Proof.
  unfold app.dispatch, app.api_predict.
  destruct (app.assoc "image" (app.files req)) as [image|]; [|reflexivity].
  intros ->. reflexivity.
Qed.

End PredictionRoutes.

(** ** The classifier *)

Section Classifier.

Local Open Scope R_scope.

Lemma sum_exp_nonneg (xs : list R) : 0 <= exact.sum (map exp xs).
Proof.
  induction xs as [| x xs IH]; simpl; [lra|].
  pose proof (exp_pos x). lra.
Qed.

Lemma exp_le_sum (xs : list R) (x : R) :
  In x xs -> exp x <= exact.sum (map exp xs).
Proof.
  induction xs as [| y xs IH]; simpl; [tauto|].
  intros [-> | H].
  - pose proof (sum_exp_nonneg xs). lra.
  - pose proof (exp_pos y). specialize (IH H). lra.
Qed.

(** Every entry of a softmax is a probability. *)
Lemma softmax_bounds (xs : list R) (q : R) :
  In q (exact.softmax xs) -> 0 < q <= 1.
Proof.
  unfold exact.softmax. intros H. apply in_map_iff in H as (x & <- & Hx).
  pose proof (exp_pos x) as Px. pose proof (exp_le_sum xs x Hx) as Le.
  assert (0 < exact.sum (map exp xs)) as Ps by lra.
  split.
  - now apply Rdiv_lt_0_compat.
  - apply (Rmult_le_reg_r (exact.sum (map exp xs))); [assumption|].
    unfold Rdiv. rewrite Rmult_assoc, Rinv_l by lra. lra.
Qed.

Lemma max_from_spec (xs : list R) :
  forall (best : R) (bi i : nat) (p : R) (k : nat),
    torch.max_from best bi i xs = (p, k) ->
    (bi < i)%nat ->
    best <= p
    /\ (forall q, In q xs -> q <= p)
    /\ ((k = bi /\ p = best)
        \/ (best < p /\ (i <= k < i + List.length xs)%nat
            /\ nth_error xs (k - i) = Some p))
    /\ (forall j q, nth_error xs j = Some q -> (i + j < k)%nat -> q < p).
Proof.
  induction xs as [| x r IH]; intros best bi i p k H Hlt; simpl in H.
  - injection H as <- <-. repeat split; try lra.
    + intros q [].
    + now left.
    + intros [| j] q Hq; discriminate.
  - destruct (Rlt_dec best x) as [Hbx | Hbx].
    + destruct (IH x i (S i) p k H (Nat.lt_succ_diag_r i))
        as (Hxp & Hall & Halt & Hfirst).
      split; [lra|]. split; [|split].
      * intros q [<- | Hq]; [lra | auto].
      * right. split; [lra|].
        destruct Halt as [[-> ->] | (Hlt' & Hk & Hnth)].
        -- split; [simpl; lia|]. rewrite Nat.sub_diag. reflexivity.
        -- split; [simpl; lia|].
           replace (k - i)%nat with (S (k - S i)) by lia. exact Hnth.
      * intros [| j] q Hq Hj; simpl in Hq.
        -- injection Hq as <-.
           destruct Halt as [[-> _] | (Hlt' & _)]; [lia | lra].
        -- apply (Hfirst j q Hq). lia.
    + destruct (IH best bi (S i) p k H (Nat.lt_lt_succ_r _ _ Hlt))
        as (Hbp & Hall & Halt & Hfirst).
      split; [lra|]. split; [|split].
      * intros q [<- | Hq]; [lra | auto].
      * destruct Halt as [[-> ->] | (Hlt' & Hk & Hnth)]; [now left|].
        right. split; [lra|]. split; [simpl; lia|].
        replace (k - i)%nat with (S (k - S i)) by lia. exact Hnth.
      * intros [| j] q Hq Hj; simpl in Hq.
        -- injection Hq as <-.
           destruct Halt as [[-> _] | (Hlt' & _)]; [lia | lra].
        -- apply (Hfirst j q Hq). lia.
Qed.

(** [torch.max] of a non-empty row is its first arg-max. *)
Lemma max_first_argmax (xs : list R) :
  xs <> [] ->
  exists p k, torch.max xs = Ok (p, k)
              /\ first_argmax xs k p /\ (k < List.length xs)%nat.
Proof.
  destruct xs as [| x r]; [congruence|]. intros _.
  destruct (torch.max_from x 0 1 r) as [p k] eqn:E.
  exists p, k. split; [simpl; now rewrite E|].
  destruct (max_from_spec r x 0%nat 1%nat p k E Nat.lt_0_1)
    as (Hxp & Hall & Halt & Hfirst).
  unfold first_argmax. repeat split.
  - destruct Halt as [[-> ->] | (_ & Hk & Hnth)]; [reflexivity|].
    replace k with (S (k - 1)) by lia. exact Hnth.
  - intros q [<- | Hq]; auto.
  - intros [| j] q Hj Hq; simpl in Hq.
    + injection Hq as <-.
      destruct Halt as [[-> _] | (Hlt' & _)]; [lia | lra].
    + apply (Hfirst j q Hq). lia.
  - destruct Halt as [[-> _] | (_ & Hk & _)]; simpl; lia.
Qed.

Lemma round_half_even_bounds (r : R) (n : Z) :
  0 <= r <= IZR n -> (0 <= exact.round_half_even r <= n)%Z.
Proof.
  intros [H0 Hn]. unfold exact.round_half_even.
  destruct (base_Int_part r) as [Hle Hgt].
  set (f := Int_part r) in *.
  assert (0 <= f)%Z as Hf0.
  { assert (-1 < f)%Z; [|lia]. apply lt_IZR. lra. }
  assert (f <= n)%Z as Hfn by (apply le_IZR; lra).
  assert (f = n \/ f + 1 <= n)%Z as [-> | Hlt] by lia.
  - destruct (Rlt_dec (r - IZR n) (1 / 2)) as [_ | Hd]; [lia|].
    exfalso. apply Hd. lra.
  - destruct (Rlt_dec (r - IZR f) (1 / 2)); [lia|].
    destruct (Rlt_dec (1 / 2) (r - IZR f)); [lia|].
    destruct (Z.even f); lia.
Qed.

(** [round_half_even] picks an integer at distance at most one half. *)
Lemma round_half_even_close (r : R) :
  Rabs (r - IZR (exact.round_half_even r)) <= 1 / 2.
Proof.
  unfold exact.round_half_even.
  destruct (base_Int_part r) as [Hle Hgt].
  set (f := Int_part r) in *.
  destruct (Rlt_dec (r - IZR f) (1 / 2)) as [Hd | Hd].
  - rewrite Rabs_pos_eq; lra.
  - assert (Rabs (r - IZR (f + 1)) <= 1 / 2) as Hup.
    { rewrite plus_IZR. rewrite Rabs_left1; lra. }
    destruct (Rlt_dec (1 / 2) (r - IZR f)); [exact Hup|].
    destruct (Z.even f); [rewrite Rabs_pos_eq; lra | exact Hup].
Qed.

Lemma half_le_dist_other (r : R) (z z' : Z) :
  Rabs (r - IZR z) <= 1 / 2 -> Rabs (r - IZR z) <= Rabs (r - IZR z').
Proof.
  intros H.
  destruct (Z.eq_dec z z') as [-> | Hne]; [lra|].
  assert (1 <= Rabs (IZR z - IZR z')) as Hgap.
  { rewrite <- minus_IZR. rewrite <- abs_IZR. apply IZR_le. lia. }
  pose proof (Rabs_triang (IZR z - r) (r - IZR z')) as T.
  replace (IZR z - r + (r - IZR z')) with (IZR z - IZR z') in T by lra.
  rewrite (Rabs_minus_sym (IZR z) r) in T. lra.
Qed.

(** [round(x, 2)] is a nearest number with two decimal places. *)
Lemma round_2_nearest (x : R) : rounded_to_2_places x (exact.round x 2).
Proof.
  unfold rounded_to_2_places, exact.round.
  replace (10 ^ 2) with 100 by (simpl; lra).
  exists (exact.round_half_even (x * 100)). split; [reflexivity|].
  intros z'.
  pose proof (half_le_dist_other (x * 100) _ z' (round_half_even_close _)) as H.
  set (z := exact.round_half_even (x * 100)) in *.
  replace (x - IZR z / 100) with ((x * 100 - IZR z) / 100) by lra.
  replace (x - IZR z' / 100) with ((x * 100 - IZR z') / 100) by lra.
  unfold Rdiv. rewrite !Rabs_mult.
  apply Rmult_le_compat_r; [apply Rabs_pos | exact H].
Qed.

Lemma round_2_bounds (x : R) :
  0 <= x <= 100 -> 0 <= exact.round x 2 <= 100.
Proof.
  intros Hx. unfold exact.round.
  replace (10 ^ 2) with 100 by (simpl; lra).
  destruct (round_half_even_bounds (x * 100) 10000) as [H0 H1]; [lra|].
  apply IZR_le in H0, H1.
  set (z := IZR (exact.round_half_even (x * 100))) in *. lra.
Qed.

(** The view of [_preprocess] goes through for three bands only. *)
Lemma view_three_bands (tensor : utils.Picture) :
  utils.picture_bands tensor = utils.three_bands ->
  utils.view tensor = Ok (utils.picture_values tensor).
Proof. unfold utils.view. now intros ->. Qed.

Lemma view_other_bands (tensor : utils.Picture) :
  utils.picture_bands tensor <> utils.three_bands ->
  utils.view tensor = Raise RuntimeError.
Proof.
  unfold utils.view. destruct (utils.picture_bands tensor); try reflexivity.
  intros H. now contradiction H.
Qed.

(** The steps of [predict_with_confidence] on a picture of three bands,
    up to the scan for the maximum. *)
Lemma predict_with_confidence_steps (u : utils.Module_state)
    (image_path : string) (w : World) (bytes : string)
    (tensor : utils.Picture) (logits : torch.Tensor) :
  utils.lookup_file image_path (fs_files w) = Some bytes ->
  utils.image_open u bytes = Ok tensor ->
  utils.picture_bands tensor = utils.three_bands ->
  utils.model u (utils.picture_values tensor) = Ok logits ->
  utils.predict_with_confidence u image_path w
  = (with_forward (forward_passes w ++ [image_path]) w,
     match torch.max (numeric.softmax (utils.kernels u) logits) with
     | Ok (p, i) =>
         Ok (Z.of_nat i,
             numeric.round (utils.kernels u)
               (numeric.mul (utils.kernels u) p 100) 2)
     | Raise e => Raise e
     end).
Proof.
  intros Hfile Hopen Hbands Hmodel.
  unfold utils.predict_with_confidence, bind, utils._preprocess,
    utils.forward, lift.
  rewrite Hfile, Hopen, (view_three_bands _ Hbands), Hmodel.
  now destruct (torch.max (numeric.softmax (utils.kernels u) logits))
    as [[p i] | e].
Qed.

(** X18: the run of [predict_with_confidence] on a picture of three bands.
    The class is the first arg-max of what the softmax kernel returns for
    the logits, and the confidence is what the interpreter makes of that
    probability times 100, rounded to two places.  With one probability
    per class, the class index lies between 0 and 38.  The one forward
    pass is recorded. *)
Theorem predict_with_confidence_three_bands (u : utils.Module_state)
    (image_path : string) (w : World) (bytes : string)
    (tensor : utils.Picture) (logits : torch.Tensor) :
  utils.lookup_file image_path (fs_files w) = Some bytes ->
  utils.image_open u bytes = Ok tensor ->
  utils.picture_bands tensor = utils.three_bands ->
  utils.model u (utils.picture_values tensor) = Ok logits ->
  List.length (numeric.softmax (utils.kernels u) logits) = utils.num_classes ->
  exists (i : nat) (p : R),
    utils.predict_with_confidence u image_path w
    = (with_forward (forward_passes w ++ [image_path]) w,
       Ok (Z.of_nat i,
           numeric.round (utils.kernels u)
             (numeric.mul (utils.kernels u) p 100) 2))
    /\ first_argmax (numeric.softmax (utils.kernels u) logits) i p
    /\ (0 <= Z.of_nat i <= 38)%Z.
Proof.
  intros Hfile Hopen Hbands Hmodel Hlen.
  destruct (max_first_argmax (numeric.softmax (utils.kernels u) logits))
    as (p & k & Hmax & Harg & Hk).
  { intros E. rewrite E in Hlen. discriminate. }
  exists k, p. split; [|split; [exact Harg|]].
  - rewrite (predict_with_confidence_steps u image_path w bytes tensor logits
               Hfile Hopen Hbands Hmodel).
    now rewrite Hmax.
  - rewrite Hlen in Hk. unfold utils.num_classes in Hk. lia.
Qed.

(** In exact arithmetic the confidence is the probability times 100 rounded
    to the nearest multiple of one hundredth, and it lies between 0 and
    100. *)
Lemma predict_with_confidence_exact (u : utils.Module_state)
    (image_path : string) (w : World) (bytes : string)
    (tensor : utils.Picture) (logits : torch.Tensor) :
  utils.kernels u = exact.kernels ->
  utils.lookup_file image_path (fs_files w) = Some bytes ->
  utils.image_open u bytes = Ok tensor ->
  utils.picture_bands tensor = utils.three_bands ->
  utils.model u (utils.picture_values tensor) = Ok logits ->
  List.length logits = utils.num_classes ->
  exists (i : nat) (p c : R),
    utils.predict_with_confidence u image_path w
    = (with_forward (forward_passes w ++ [image_path]) w, Ok (Z.of_nat i, c))
    /\ first_argmax (exact.softmax logits) i p
    /\ rounded_to_2_places (p * 100) c
    /\ (0 <= Z.of_nat i <= 38)%Z
    /\ 0 <= c <= 100.
Proof.
  intros Hk Hfile Hopen Hbands Hmodel Hlen.
  assert (List.length (exact.softmax logits) = 39%nat) as Hlen'
      by (unfold exact.softmax; now rewrite length_map).
  destruct (max_first_argmax (exact.softmax logits))
    as (p & k & Hmax & Harg & Hlt).
  { intros E. rewrite E in Hlen'. discriminate. }
  exists k, p, (exact.round (p * 100) 2).
  split; [|split; [exact Harg|]].
  - rewrite (predict_with_confidence_steps u image_path w bytes tensor logits
               Hfile Hopen Hbands Hmodel), Hk.
    cbn [numeric.softmax numeric.mul numeric.round exact.kernels].
    now rewrite Hmax.
  - split; [apply round_2_nearest|]. split; [lia|].
    apply round_2_bounds.
    destruct Harg as (Hnth & _). apply nth_error_In in Hnth.
    apply softmax_bounds in Hnth. lra.
Qed.

(** C1, a slip of the code: [_preprocess] views the tensor of the picture
    as a batch of pictures of three bands without converting the picture
    to RGB.  A file that PIL opens as a picture of one, two or four bands,
    such as a greyscale or a transparent PNG, makes the view raise a
    [RuntimeError]: [predict_with_confidence] returns no class and no
    confidence and runs no forward pass, and [/api/predict] answers the
    upload of such a file, whatever its name, with 500. *)
Theorem predict_with_confidence_needs_three_bands (u : utils.Module_state)
    (bytes : string) (tensor : utils.Picture) :
  utils.image_open u bytes = Ok tensor ->
  utils.picture_bands tensor <> utils.three_bands ->
  (forall image_path w,
     utils.lookup_file image_path (fs_files w) = Some bytes ->
     utils.predict_with_confidence u image_path w = (w, Raise RuntimeError))
  /\ forall req image w w1 w2,
       app.assoc "image" (app.files req) = Some image ->
       app.filename image <> "" ->
       utils.allowed_file (app.filename image) = true ->
       app.stream image = bytes ->
       utils.ensure_upload_dir u w = (w1, Ok tt) ->
       app.save image
         (pystr.os_path_join (utils.UPLOAD_DIR u) (app.filename image)) w1
       = (w2, Ok tt) ->
       app.dispatch (app.api_predict u req) w
       = (w2, (app.json_failure (WithExn "" RuntimeError), 500%Z))
       /\ forward_passes w2 = forward_passes w.
Proof.
  intros Hopen Hbands.
  assert (forall image_path w,
            utils.lookup_file image_path (fs_files w) = Some bytes ->
            utils.predict_with_confidence u image_path w
            = (w, Raise RuntimeError)) as Hpred.
  { intros image_path w Hfile.
    unfold utils.predict_with_confidence, bind, utils._preprocess.
    now rewrite Hfile, Hopen, (view_other_bands _ Hbands). }
  split; [exact Hpred|].
  intros req image w w1 w2 Himg Hname Hok Hstream Hdir Hsave.
  assert (utils.lookup_file
            (pystr.os_path_join (utils.UPLOAD_DIR u) (app.filename image))
            (fs_files w2) = Some bytes
          /\ forward_passes w2 = forward_passes w1) as [Hfile Hfw].
  { revert Hsave. unfold app.save.
    destruct (pystr.endswith "/" _); [discriminate|].
    destruct (can_open w1 _); [|discriminate].
    intros [= <-]. cbn. rewrite String.eqb_refl. now rewrite Hstream. }
  assert (forward_passes w1 = forward_passes w) as Hfw'.
  { revert Hdir. unfold utils.ensure_upload_dir.
    destruct (pystr.str_in _ _); [now intros [= <-]|].
    destruct (disk_ok w); [now intros [= <-] | discriminate]. }
  split; [|congruence].
  unfold app.dispatch, app.api_predict. rewrite Himg, Hok.
  apply String.eqb_neq in Hname. rewrite Hname. simpl.
  unfold try_except, bind. rewrite Hdir, Hsave, (Hpred _ _ Hfile).
  reflexivity.
Qed.

(** The upload of a transparent picture under the name [leaf.jpg]. *)
Lemma predict_with_confidence_needs_three_bands_witness :
  utils.predict_with_confidence sample.u0 sample.leaf_path
    (with_files [(sample.leaf_path, "RGBA")]
       (with_dirs ["/srv/app/static/uploads"] sample.w0))
  = (with_files [(sample.leaf_path, "RGBA")]
       (with_dirs ["/srv/app/static/uploads"] sample.w0),
     Raise RuntimeError)
  /\ app.dispatch
       (app.api_predict sample.u0 (sample.upload_of "leaf.jpg" "RGBA"))
       sample.w0
     = (with_files [(sample.leaf_path, "RGBA")]
          (with_dirs ["/srv/app/static/uploads"] sample.w0),
        (app.json_failure (WithExn "" RuntimeError), 500%Z)).
Proof.
  destruct (predict_with_confidence_needs_three_bands sample.u0 "RGBA"
              {| utils.picture_bands := utils.four_bands;
                 utils.picture_values := [0; 0; 0; 0] |}
              eq_refl ltac:(discriminate)) as [Hpred Hroute].
  split.
  - exact (Hpred sample.leaf_path
             (with_files [(sample.leaf_path, "RGBA")]
                (with_dirs ["/srv/app/static/uploads"] sample.w0))
             eq_refl).
  - exact (proj1 (Hroute (sample.upload_of "leaf.jpg" "RGBA")
                    {| app.filename := "leaf.jpg"; app.stream := "RGBA" |}
                    sample.w0
                    (with_dirs ["/srv/app/static/uploads"] sample.w0)
                    (with_files [(sample.leaf_path, "RGBA")]
                       (with_dirs ["/srv/app/static/uploads"] sample.w0))
                    eq_refl ltac:(discriminate) eq_refl eq_refl eq_refl
                    eq_refl)).
Defined.

(** The run on a picture of three bands and the uniform network. *)
Lemma predict_with_confidence_three_bands_witness :
  exists (i : nat) (p : R),
    utils.predict_with_confidence sample.u0 sample.leaf_path sample.w_leaf
    = (with_forward (forward_passes sample.w_leaf ++ [sample.leaf_path])
         sample.w_leaf,
       Ok (Z.of_nat i, exact.round (p * 100) 2))
    /\ first_argmax (exact.softmax (repeat 0 39)) i p
    /\ (0 <= Z.of_nat i <= 38)%Z.
Proof.
  exact (predict_with_confidence_three_bands sample.u0 sample.leaf_path
           sample.w_leaf "bytes"
           sample.rgb (repeat 0 39) eq_refl eq_refl eq_refl eq_refl eq_refl).
Defined.

Lemma max_from_uniform (q : R) (bi i n : nat) :
  torch.max_from q bi i (repeat q n) = (q, bi).
Proof.
  revert i. induction n as [| n IH]; intros i; simpl; [reflexivity|].
  destruct (Rlt_dec q q) as [H | _]; [lra | apply IH].
Qed.

(** On equal logits and in exact arithmetic the classifier reports
    class 0. *)
Lemma predict_uniform (u : utils.Module_state) (w : World)
    (image_path bytes : string) (tensor : utils.Picture) (x : R) (n : nat) :
  utils.kernels u = exact.kernels ->
  utils.lookup_file image_path (fs_files w) = Some bytes ->
  utils.image_open u bytes = Ok tensor ->
  utils.picture_bands tensor = utils.three_bands ->
  utils.model u (utils.picture_values tensor) = Ok (repeat x (S n)) ->
  utils.predict_with_confidence u image_path w
  = (with_forward (forward_passes w ++ [image_path]) w,
     Ok (0%Z,
         exact.round (exp x / exact.sum (map exp (repeat x (S n))) * 100) 2)).
Proof.
  intros Hk Hfile Hopen Hbands Hmodel.
  unfold utils.predict_with_confidence, bind, utils._preprocess,
    utils.forward, lift.
  rewrite Hfile, Hopen, (view_three_bands _ Hbands), Hmodel, Hk.
  cbn [numeric.softmax numeric.mul numeric.round exact.kernels].
  unfold exact.softmax. rewrite map_repeat.
  cbn [repeat torch.max]. rewrite max_from_uniform. reflexivity.
Qed.

End Classifier.

(** ** Concrete runs of the prediction routes *)

Section PredictionRuns.

Import pystr.

(** The write of the record fails and the client still gets its answer. *)
Lemma api_predict_survives_failed_write_witness :
  snd (app.dispatch (app.api_predict sample.u0 (sample.upload "leaf.jpg"))
         sample.w_down)
  = (app.json_prediction (merged sample.row sample.srow)
       sample.uniform_confidence, 200)
  /\ stdout (fst (app.dispatch
                    (app.api_predict sample.u0 (sample.upload "leaf.jpg"))
                    sample.w_down))
     = [WithExn "[MongoDB] Could not save prediction: "
          ServerSelectionTimeoutError].
Proof.
  destruct (api_predict_survives_failed_write sample.u0
              (sample.upload "leaf.jpg")
              {| app.filename := "leaf.jpg"; app.stream := "bytes" |}
              sample.w_down
              (with_dirs ["/srv/app/static/uploads"] sample.w_down)
              sample.w_down_leaf
              (with_forward [sample.leaf_path] sample.w_down_leaf)
              0 sample.uniform_confidence (merged sample.row sample.srow)
              eq_refl ltac:(discriminate) eq_refl eq_refl eq_refl
              (predict_uniform sample.u0 sample.w_down_leaf sample.leaf_path
                 "bytes" sample.rgb 0%R 38 eq_refl eq_refl eq_refl eq_refl
                 eq_refl)
              eq_refl) as [Hresp Hlog].
  split; [exact Hresp|].
  exact (proj2 (Hlog _ ServerSelectionTimeoutError eq_refl)).
Defined.

Lemma append_empty (a : string) : a ++ "" = a.
Proof. induction a as [| c a IH]; simpl; [reflexivity | now rewrite IH]. Qed.

Lemma endswith_app_slash (a : string) : endswith "/" (a ++ "/") = true.
Proof.
  induction a as [| c a IH]; [reflexivity|].
  simpl. destruct (a ++ "/") eqn:E; [destruct a; discriminate | exact IH].
Qed.

Lemma join_empty_name (a : string) :
  a <> "" -> endswith "/" (os_path_join a "") = true.
Proof.
  intros Ha. unfold os_path_join. cbn [startswith].
  destruct a as [| c a]; [congruence|]. cbn [is_empty orb].
  destruct (endswith "/" (String c a)) eqn:E.
  - now rewrite append_empty.
  - apply endswith_app_slash.
Qed.

Lemma UPLOAD_DIR_not_empty (u : utils.Module_state) : utils.UPLOAD_DIR u <> "".
Proof.
  unfold utils.UPLOAD_DIR.
  generalize (os_path_join (utils.BASE_DIR u) "static"). intros a.
  unfold os_path_join. cbn [startswith Ascii.eqb Bool.eqb].
  destruct (is_empty a || endswith "/" a); destruct a; discriminate.
Qed.

(** [/submit] answers a request without a file with the 400 page of the
    framework, not with a JSON failure. *)
Lemma submit_without_file (u : utils.Module_state) (w : World) :
  app.dispatch
    (app.submit u {| app.method := app.POST; app.files := [];
                     app.get_json := None |}) w
  = (w, (app.html_error_page, 400)).
Proof. reflexivity. Qed.

(** C6, at the failing input: [/submit] does not validate the upload.  For
    a file with an empty name it goes on to create the upload directory and
    to write to the path of that directory; the write raises and the request
    is answered with the 500 page of the framework, where [/api/predict]
    answers 400 before touching the disk. *)
Theorem submit_empty_filename (u : utils.Module_state) (w : World)
    (bytes : string) :
  app.dispatch (app.submit u (sample.upload_of "" bytes)) w
  = (fst (utils.ensure_upload_dir u w), (app.html_error_page, 500))
  /\ app.dispatch (app.api_predict u (sample.upload_of "" bytes)) w
     = (w, app.failure "Empty filename." 400).
Proof.
  split; [|reflexivity].
  unfold app.dispatch, app.submit, bind, app.files_getitem, ret.
  cbn [app.method sample.upload_of app.files app.assoc String.eqb
       Ascii.eqb Bool.eqb app.filename].
  unfold utils.ensure_upload_dir, app.save.
  rewrite (join_empty_name _ (UPLOAD_DIR_not_empty u)).
  destruct (str_in (utils.UPLOAD_DIR u) (dirs w)); [reflexivity|].
  destruct (disk_ok w); reflexivity.
Qed.

(** C8: the import of [utils] checks neither table: with any two tables
    that [read_csv] returns and any weights that load, the module state is
    built and the service starts.  A class index that one of the tables
    lacks is found out by the lookup of a request, which raises a
    [KeyError], and [/api/predict] answers that request with 500. *)
Theorem import_module_unchecked (base : string)
    (d : list utils.DiseaseRow) (s : list utils.SupplementRow)
    (opener : string -> result utils.Picture)
    (m : torch.Tensor -> result torch.Tensor) (k : numeric.Kernels) :
  let u := {| utils.BASE_DIR := base; utils.disease_info := d;
              utils.supplement_info := s; utils.image_open := opener;
              utils.model := m; utils.kernels := k |} in
  utils.import_module base (Ok d) (Ok s) opener (Ok m) k = Ok u
  /\ forall index : Z,
       index < 0 \/ Z.of_nat (Nat.min (List.length d) (List.length s)) <= index ->
       utils.get_disease_info u index = Raise (KeyError index)
       /\ forall req image w w1 w2 w3 confidence,
            app.assoc "image" (app.files req) = Some image ->
            app.filename image <> "" ->
            utils.allowed_file (app.filename image) = true ->
            utils.ensure_upload_dir u w = (w1, Ok tt) ->
            app.save image
              (os_path_join (utils.UPLOAD_DIR u) (app.filename image)) w1
            = (w2, Ok tt) ->
            utils.predict_with_confidence u
              (os_path_join (utils.UPLOAD_DIR u) (app.filename image)) w2
            = (w3, Ok (index, confidence)) ->
            app.dispatch (app.api_predict u req) w
            = (w3, (app.json_failure (WithExn "" (KeyError index)), 500)).
Proof.
  intros u. split; [reflexivity|].
  intros index Hout.
  assert (utils.get_disease_info u index = Raise (KeyError index)) as Hmiss
      by now apply get_disease_info_missing.
  split; [exact Hmiss|].
  intros req image w w1 w2 w3 confidence Himg Hname Hok Hdir Hsave Hpred.
  now apply (api_predict_unknown_class u req image w w1 w2 w3 index confidence).
Qed.

(** The application starts with a disease table of one row and an empty
    supplement table, and the first request finds it out. *)
Lemma import_module_unchecked_witness :
  utils.import_module "/srv/app" (Ok [sample.row]) (Ok [])
    sample.open_image (Ok (fun _ => Ok (repeat 0%R 39))) exact.kernels
  = Ok sample.u_short
  /\ app.dispatch (app.api_predict sample.u_short (sample.upload "leaf.jpg"))
       sample.w0
     = (with_forward [sample.leaf_path]
          (with_files [(sample.leaf_path, "bytes")]
             (with_dirs ["/srv/app/static/uploads"] sample.w0)),
        (app.json_failure (WithExn "" (KeyError 0)), 500)).
Proof.
  destruct (import_module_unchecked "/srv/app" [sample.row] []
              sample.open_image (fun _ => Ok (repeat 0%R 39)) exact.kernels)
    as [Hstart Hreq].
  split; [exact Hstart|].
  destruct (Hreq 0 ltac:(right; simpl; lia)) as [_ Hrun].
  apply (Hrun (sample.upload "leaf.jpg")
           {| app.filename := "leaf.jpg"; app.stream := "bytes" |}
           sample.w0
           (with_dirs ["/srv/app/static/uploads"] sample.w0)
           (with_files [(sample.leaf_path, "bytes")]
              (with_dirs ["/srv/app/static/uploads"] sample.w0))
           _ sample.uniform_confidence
           eq_refl ltac:(discriminate) eq_refl eq_refl eq_refl).
  exact (predict_uniform sample.u_short
           (with_files [(sample.leaf_path, "bytes")]
              (with_dirs ["/srv/app/static/uploads"] sample.w0))
           sample.leaf_path "bytes" sample.rgb 0%R 38 eq_refl eq_refl eq_refl eq_refl
                 eq_refl).
Defined.

(** Counterexample to C8 as stated: the import succeeds on tables of different
    lengths, neither of which has 39 rows. *)
Lemma import_module_accepts_mismatch :
  utils.import_module "/srv/app" (Ok [sample.row]) (Ok [])
    sample.open_image (Ok (fun _ => Ok (repeat 0%R 39))) exact.kernels
  = Ok sample.u_short
  /\ List.length (utils.disease_info sample.u_short)
     <> List.length (utils.supplement_info sample.u_short)
  /\ List.length (utils.disease_info sample.u_short) <> utils.num_classes
  /\ utils.get_disease_info sample.u_short 0 = Raise (KeyError 0).
Proof.
  repeat split; simpl; unfold utils.num_classes; try lia; reflexivity.
Qed.

End PredictionRuns.

(** ** The history of predictions *)

Section History.

Lemma string_compare_le_trans (s : string) :
  forall t u,
    String.compare s t <> Gt -> String.compare t u <> Gt ->
    String.compare s u <> Gt.
Proof.
  induction s as [| a s IH]; intros [| b t] [| c u]; simpl; try congruence.
  unfold Ascii.compare.
  destruct (N.compare_spec (N_of_ascii a) (N_of_ascii b)) as [E1 | L1 | G1];
    destruct (N.compare_spec (N_of_ascii b) (N_of_ascii c)) as [E2 | L2 | G2];
    try congruence; intros H1 H2.
  - rewrite E1, E2, N.compare_refl. now apply (IH t u).
  - rewrite (proj2 (N.compare_lt_iff _ _)) by lia. discriminate.
  - rewrite (proj2 (N.compare_lt_iff _ _)) by lia. discriminate.
  - rewrite (proj2 (N.compare_lt_iff _ _)) by lia. discriminate.
Qed.

Lemma string_leb_trans (s t u : string) :
  String.leb s t = true -> String.leb t u = true -> String.leb s u = true.
Proof.
  unfold String.leb. intros H1 H2.
  pose proof (string_compare_le_trans s t u) as T.
  destruct (String.compare s t); try discriminate;
    destruct (String.compare t u); try discriminate;
    destruct (String.compare s u); try reflexivity;
    exfalso; apply T; congruence.
Qed.

Lemma key_leb_total (a b : db.created_at_value) :
  db.key_leb a b = false -> db.key_leb b a = true.
Proof.
  destruct a as [s | s], b as [t | t]; simpl; try congruence.
  - intros H. apply Z.leb_gt in H. apply Z.leb_le. lia.
  - intros H. destruct (String.leb_total s t) as [T | T]; congruence.
Qed.

Lemma key_leb_trans (a b c : db.created_at_value) :
  db.key_leb a b = true -> db.key_leb b c = true -> db.key_leb a c = true.
Proof.
  destruct a as [s | s], b as [t | t], c as [v | v]; simpl; try congruence.
  - rewrite !Z.leb_le. lia.
  - apply string_leb_trans.
Qed.

(** The vocabulary of the properties and the order of the server agree. *)
Lemma not_older_key (a b : document) :
  not_older a b <-> db.key_leb (db.created_at b) (db.created_at a) = true.
Proof.
  split.
  - intros [p q H | p t | t1 t2 H]; simpl; auto. now apply Z.leb_le.
  - destruct a as [p | t1], b as [q | t2]; simpl; intros H.
    + constructor. now apply Z.leb_le.
    + constructor.
    + discriminate.
    + now constructor.
Qed.

Lemma not_older_trans (a b c : document) :
  not_older a b -> not_older b c -> not_older a c.
Proof.
  rewrite !not_older_key. intros H1 H2. now apply (key_leb_trans _ _ _ H2 H1).
Qed.

Lemma created_at_stringify (d : document) :
  db.created_at (db.stringify_id d) = db.created_at d.
Proof. destruct d; reflexivity. Qed.

Lemma not_older_stringify (a b : document) :
  not_older a b -> not_older (db.stringify_id a) (db.stringify_id b).
Proof. rewrite !not_older_key, !created_at_stringify. auto. Qed.

Section Sorting.

Variable before : document -> document -> bool.

Lemma insert_desc_perm (d : document) (l : list document) :
  Permutation (db.insert_desc before d l) (d :: l).
Proof.
  induction l as [| x r IH]; simpl; [reflexivity|].
  destruct (db.key_ltb (db.created_at x) (db.created_at d)); [reflexivity|].
  assert (Permutation (x :: db.insert_desc before d r) (d :: x :: r)) as P
      by (rewrite IH; apply perm_swap).
  destruct (db.key_ltb (db.created_at d) (db.created_at x)); [exact P|].
  destruct (before d x); [reflexivity | exact P].
Qed.

(** Sorting keeps the documents of the collection, each as often as
    stored. *)
Lemma sort_desc_perm (l : list document) :
  Permutation (db.sort_desc before l) l.
Proof.
  induction l as [| x r IH]; simpl; [reflexivity|].
  rewrite insert_desc_perm. now constructor.
Qed.

Lemma insert_desc_sorted (d : document) (l : list document) :
  newest_first l -> newest_first (db.insert_desc before d l).
Proof.
  unfold newest_first. induction l as [| x r IH]; intros Hs; simpl.
  - repeat constructor.
  - apply StronglySorted_inv in Hs as [Hr Hx].
    assert (not_older d x ->
            StronglySorted not_older (d :: x :: r)) as Front.
    { intros Hdx. constructor; [now constructor|].
      constructor; [exact Hdx|].
      eapply Forall_impl; [|exact Hx]. intros b Hb.
      now apply (not_older_trans d x b). }
    assert (not_older x d ->
            StronglySorted not_older (x :: db.insert_desc before d r)) as Back.
    { intros Hxd. constructor; [auto|].
      eapply Permutation_Forall; [symmetry; apply insert_desc_perm|].
      now constructor. }
    unfold db.key_ltb.
    destruct (db.key_leb (db.created_at d) (db.created_at x)) eqn:Edx;
      destruct (db.key_leb (db.created_at x) (db.created_at d)) eqn:Exd;
      cbn [negb].
    + destruct (before d x);
        [apply Front | apply Back]; now apply not_older_key.
    + apply Back. now apply not_older_key.
    + apply Front. now apply not_older_key.
    + apply key_leb_total in Edx. congruence.
Qed.

Lemma sort_desc_sorted (l : list document) :
  newest_first (db.sort_desc before l).
Proof.
  induction l as [| x r IH]; simpl; [constructor|].
  now apply insert_desc_sorted.
Qed.

End Sorting.

Lemma Forall_firstn_of {A} (P : A -> Prop) (k : nat) (l : list A) :
  Forall P l -> Forall P (firstn k l).
Proof.
  revert l. induction k as [| k IH]; intros [| x r] H; simpl; try constructor.
  - now inversion H.
  - apply IH. now inversion H.
Qed.

Lemma firstn_sorted (k : nat) (l : list document) :
  newest_first l -> newest_first (firstn k l).
Proof.
  unfold newest_first. revert l.
  induction k as [| k IH]; intros [| x r] H; simpl; try constructor.
  - apply IH. now apply StronglySorted_inv in H.
  - apply Forall_firstn_of. now apply StronglySorted_inv in H.
Qed.

Lemma stringify_sorted (l : list document) :
  newest_first l -> newest_first (map db.stringify_id l).
Proof.
  unfold newest_first. induction 1 as [| x r Hs IH Hx]; simpl; constructor.
  - exact IH.
  - apply Forall_map. eapply Forall_impl; [|exact Hx].
    intros b. apply not_older_stringify.
Qed.

Lemma limit_sorted (n : Z) (l : list document) :
  newest_first l -> newest_first (db.limit n l).
Proof.
  intros H. unfold db.limit. destruct (n =? 0); [exact H|].
  now apply firstn_sorted.
Qed.

Lemma get_recent_predictions_run (n : Z) (w : World) :
  db.get_recent_predictions n w
  = if mongo_up w then
      if 2 ^ 63 <=? Z.abs n then (w, Raise OverflowError)
      else
        (w, Ok (map db.stringify_id
                  (db.limit n
                     (db.sort_desc (tie_break w) (predictions_col w)))))
    else (w, Raise ServerSelectionTimeoutError).
Proof.
  unfold db.get_recent_predictions, bind, db.find_sorted_limited.
  destruct (mongo_up w); [|reflexivity].
  destruct (2 ^ 63 <=? Z.abs n); reflexivity.
Qed.

(** What [get_recent_predictions] returns, when it returns: a front part of
    the stored documents, with their ids as text, in an order that is
    newest first. *)
Lemma get_recent_predictions_front (n : Z) (w w' : World)
    (l : list document) :
  db.get_recent_predictions n w = (w', Ok l) ->
  w' = w
  /\ newest_first l
  /\ (n <> 0 -> Z.of_nat (List.length l) <= Z.abs n)
  /\ exists rest,
       Permutation (map db.stringify_id (predictions_col w)) (l ++ rest)
       /\ newest_first (l ++ rest)
       /\ (n = 0 -> rest = []).
Proof.
  rewrite get_recent_predictions_run.
  destruct (mongo_up w); [|discriminate].
  destruct (2 ^ 63 <=? Z.abs n); [discriminate|].
  intros [= <- <-].
  pose proof (sort_desc_sorted (tie_break w) (predictions_col w)) as Hs.
  pose proof (sort_desc_perm (tie_break w) (predictions_col w)) as Hp.
  set (sorted := db.sort_desc (tie_break w) (predictions_col w)) in *.
  split; [reflexivity|]. split; [now apply stringify_sorted, limit_sorted|].
  unfold db.limit. destruct (Z.eqb_spec n 0) as [-> | Hn].
  - split; [intros H; now contradiction H|].
    exists []. rewrite app_nil_r. repeat split.
    + symmetry. now apply Permutation_map.
    + now apply stringify_sorted.
  - split; [intros _; rewrite length_map, length_firstn; lia|].
    exists (map db.stringify_id (skipn (Z.abs_nat n) sorted)).
    rewrite <- map_app, firstn_skipn. repeat split.
    + symmetry. now apply Permutation_map.
    + now apply stringify_sorted.
    + intros E. contradiction.
Qed.




End History.

(** ** Accounts *)

Section Accounts.

Variable x : app.Extensions.

(** Enter a view of the account routes on a body known to be the non-empty
    object [Hbody], and expose the reading of its fields. *)
Ltac enter_view Hbody Ht :=
  unfold app.dispatch, app.signup, app.login;
  rewrite Hbody, Ht; cbn [negb];
  unfold bind, lift, app.get, utils.rbind.

Lemma json_field_inv (req : app.Request) (key : string) (v : app.json) :
  json_field req key = Some v ->
  exists fields,
    app.get_json req = Some (app.JObj fields)
    /\ app.assoc key fields = Some v
    /\ app.truthy (app.JObj fields) = true.
Proof.
  unfold json_field.
  destruct (app.get_json req) as [[| | | | | fields]|]; try discriminate.
  intros H. exists fields. repeat split; [exact H|].
  destruct fields; [discriminate | reflexivity].
Qed.

Lemma text_field_inv (req : app.Request) (key s : string) :
  text_field req key = Some s -> json_field req key = Some (app.JStr s).
Proof.
  unfold text_field.
  destruct (json_field req key) as [[| | | t | |]|]; try discriminate.
  now intros [= ->].
Qed.

Lemma is_empty_false (s : string) : s <> "" -> pystr.is_empty s = false.
Proof. destruct s; [congruence | reflexivity]. Qed.

Lemma is_empty_true (s : string) : pystr.is_empty s = true -> s = "".
Proof. destruct s; [reflexivity | discriminate]. Qed.

Lemma find_user_by_email_read (email : string) (w w' : World)
    (r : option UserDoc) :
  db.find_user_by_email email w = (w', Ok r) ->
  w' = w /\ mongo_up w = true
  /\ r = find (fun a => String.eqb (u_email a) email) (users_col w).
Proof.
  unfold db.find_user_by_email. destruct (mongo_up w); [|discriminate].
  intros [= <- <-]. auto.
Qed.



(** The run of [/login] on a body with an address and a password, once the
    lookup has answered.  An exception of [bcrypt] is not caught by the
    view and reaches the dispatcher. *)
Lemma login_run (req : app.Request) (w : World) (email : string)
    (password : app.json) (r : option UserDoc) :
  text_field req "email" = Some email ->
  json_field req "password" = Some password ->
  normalized x email <> "" ->
  app.truthy password = true ->
  db.find_user_by_email (normalized x email) w = (w, Ok r) ->
  app.dispatch (app.login x req) w
  = match r with
    | None => (w, app.failure "Invalid email or password." 401)
    | Some user =>
        match app.check_password_hash x (u_password user) password with
        | Ok ok =>
            (w, if ok then
                  (app.json_login
                     (app.create_access_token x (str_id (u_id user)))
                     (str_id (u_id user)) (u_name user) (u_email user), 200)
                else app.failure "Invalid email or password." 401)
        | Raise e => app.dispatch (raise e) w
        end
    end.
Proof.
  intros Hemail Hpw Haddr Hne Hfind.
  apply text_field_inv in Hemail.
  destruct (json_field_inv _ _ _ Hemail) as (fields & Hbody & He & Ht).
  unfold json_field in Hpw. rewrite Hbody in Hpw.
  enter_view Hbody Ht. rewrite He, Hpw.
  cbn [app.strip]. fold (normalized x email).
  rewrite (is_empty_false _ Haddr), Hne. cbn [orb negb].
  rewrite Hfind.
  destruct r as [user|]; [|reflexivity].
  destruct (app.check_password_hash x (u_password user) password)
    as [[|]|e]; reflexivity.
Qed.

(** A password that is no text is rejected by [bcrypt] with an exception. *)
Lemma check_password_hash_not_text (pw_hash : string) (password : app.json) :
  (forall s, password <> app.JStr s) ->
  app.check_password_hash x pw_hash password = Raise TypeError.
Proof.
  intros H. destruct password as [| b | n | s | l | l]; try reflexivity.
  now contradiction (H s).
Qed.

(** Two failed logins, one under an address of no account and one under
    the address of an account with a password that [bcrypt] compares and
    finds wrong, are answered alike. *)
Lemma login_rejections_alike (r1 r2 : app.Request) (w : World)
    (e1 p1 e2 p2 : string) (account : UserDoc) :
  text_field r1 "email" = Some e1 ->
  text_field r1 "password" = Some p1 ->
  normalized x e1 <> "" -> p1 <> "" ->
  text_field r2 "email" = Some e2 ->
  text_field r2 "password" = Some p2 ->
  normalized x e2 <> "" -> p2 <> "" ->
  db.find_user_by_email (normalized x e1) w = (w, Ok None) ->
  db.find_user_by_email (normalized x e2) w = (w, Ok (Some account)) ->
  app.check_of x (u_password account) p2 = Ok false ->
  app.dispatch (app.login x r1) w
  = (w, app.failure "Invalid email or password." 401)
  /\ app.dispatch (app.login x r2) w
     = (w, app.failure "Invalid email or password." 401).
Proof.
  intros He1 Hp1 Ha1 Hn1 He2 Hp2 Ha2 Hn2 Hnone Hsome Hwrong.
  apply text_field_inv in Hp1, Hp2. split.
  - rewrite (login_run r1 w e1 (app.JStr p1) None); auto.
    cbn. now rewrite (is_empty_false _ Hn1).
  - rewrite (login_run r2 w e2 (app.JStr p2) (Some account)); auto.
    + cbn [app.check_password_hash]. now rewrite Hwrong.
    + cbn. now rewrite (is_empty_false _ Hn2).
Qed.

(** A password that [bcrypt] refuses to compare tells a registered address
    from one that is not: the lookup of an address of no account ends the
    view with 401 before [bcrypt] is called, and for the address of an
    account the exception of [bcrypt] leaves the view. *)
Lemma login_check_raises (r1 r2 : app.Request) (w : World)
    (e1 e2 : string) (password : app.json) (account : UserDoc) (e : exn) :
  text_field r1 "email" = Some e1 ->
  json_field r1 "password" = Some password ->
  text_field r2 "email" = Some e2 ->
  json_field r2 "password" = Some password ->
  normalized x e1 <> "" ->
  normalized x e2 <> "" ->
  app.truthy password = true ->
  db.find_user_by_email (normalized x e1) w = (w, Ok None) ->
  db.find_user_by_email (normalized x e2) w = (w, Ok (Some account)) ->
  app.check_password_hash x (u_password account) password = Raise e ->
  app.dispatch (app.login x r1) w
  = (w, app.failure "Invalid email or password." 401)
  /\ app.dispatch (app.login x r2) w = app.dispatch (raise e) w.
Proof.
  intros He1 Hp1 He2 Hp2 Ha1 Ha2 Ht Hnone Hsome Hraise. split.
  - now rewrite (login_run r1 w e1 password None).
  - rewrite (login_run r2 w e2 password (Some account)); auto.
    now rewrite Hraise.
Qed.

(** C9, a slip of the code: the two failed logins of the claim are answered
    alike only when [bcrypt] gets as far as comparing the password.  For a
    password that is true in Python but is no text, such as the JSON number
    [12345], an address of no account is answered with 401 and the message
    of the claim, and the address of an account is answered with the 500
    page of the framework, because the [TypeError] of [bcrypt] is not
    caught.  Neither request changes the world.  The answer so tells
    whether the address is registered. *)
Theorem login_reveals_registration (r1 r2 : app.Request) (w : World)
    (e1 e2 : string) (password : app.json) (account : UserDoc) :
  text_field r1 "email" = Some e1 ->
  json_field r1 "password" = Some password ->
  text_field r2 "email" = Some e2 ->
  json_field r2 "password" = Some password ->
  normalized x e1 <> "" ->
  normalized x e2 <> "" ->
  app.truthy password = true ->
  (forall s, password <> app.JStr s) ->
  db.find_user_by_email (normalized x e1) w = (w, Ok None) ->
  db.find_user_by_email (normalized x e2) w = (w, Ok (Some account)) ->
  app.dispatch (app.login x r1) w
  = (w, app.failure "Invalid email or password." 401)
  /\ app.dispatch (app.login x r2) w = (w, (app.html_error_page, 500))
  /\ snd (app.dispatch (app.login x r1) w)
     <> snd (app.dispatch (app.login x r2) w).
Proof.
  intros He1 Hp1 He2 Hp2 Ha1 Ha2 Ht Hnot Hnone Hsome.
  destruct (login_check_raises r1 r2 w e1 e2 password account TypeError)
    as [H1 H2]; auto using check_password_hash_not_text.
  rewrite H1, H2. repeat split. cbn. intros H. discriminate H.
Qed.

Lemma find_app_last {A} (f : A -> bool) (l : list A) (a : A) :
  find f l = None -> f a = true -> find f (l ++ [a])%list = Some a.
Proof.
  induction l as [| y l IH]; simpl; intros Hnone Ha.
  - now rewrite Ha.
  - destruct (f y); [discriminate | auto].
Qed.

(** What a successful [/signup] has done. *)
Lemma signup_created (req : app.Request) (w w' : World) (uid : id_field)
    (name email password : string) :
  text_field req "name" = Some name ->
  text_field req "email" = Some email ->
  text_field req "password" = Some password ->
  app.dispatch (app.signup x req) w = (w', (app.json_user_created uid, 201)) ->
  exists hashed,
    app.hash_of x password = Ok hashed
    /\ normalized x email <> ""
    /\ mongo_up w = true
    /\ find (fun a => String.eqb (u_email a) (normalized x email))
         (users_col w) = None
    /\ uid = StrId (next_oid w)
    /\ w' = with_users
              (users_col w
               ++ [{| u_id := ObjectId (next_oid w);
                      u_name := app.str_strip x name;
                      u_email := normalized x email;
                      u_password := hashed;
                      u_created_at := clock w |}])%list w.
Proof.
  intros Hname Hemail Hpw.
  apply text_field_inv in Hname, Hemail, Hpw.
  destruct (json_field_inv _ _ _ Hemail) as (fields & Hbody & He & Ht).
  unfold json_field in Hname, Hpw. rewrite Hbody in Hname, Hpw.
  enter_view Hbody Ht. rewrite Hname, He, Hpw.
  cbn [app.strip app.truthy]. fold (normalized x email).
  destruct (pystr.is_empty (app.str_strip x name)); [discriminate|].
  destruct (pystr.is_empty (normalized x email)) eqn:Ea; [discriminate|].
  destruct (pystr.is_empty password); [discriminate|]. cbn [orb negb].
  unfold db.find_user_by_email, db.create_user, db.users_insert_one,
    db.utcnow, bind, ret.
  destruct (mongo_up w) eqn:Up; [|discriminate].
  destruct (find _ (users_col w)) as [a|] eqn:Hfind; [discriminate|].
  cbn [app.generate_password_hash].
  destruct (app.hash_of x password) as [hashed | e];
    [|destruct e; discriminate].
  rewrite Up. cbn [u_email].
  destruct (unique_email_index w && existsb _ (users_col w));
    [discriminate|].
  intros [= <- <-]. exists hashed. repeat split; auto.
  intros E. rewrite E in Ea. discriminate.
Qed.

(** Addresses that differ only in surrounding white space or in the case of
    ASCII letters are normalized to the same text, by the two facts about
    the string methods. *)
Lemma same_address_normalized (e1 e2 : string) :
  strip_ignores_white x -> lower_folds_ascii x ->
  same_address x e1 e2 -> normalized x e1 = normalized x e2.
Proof.
  intros Hstrip Hlower
    (pre1 & c1 & post1 & pre2 & c2 & post2
     & -> & -> & B1 & B1' & B2 & B2' & Hc).
  apply Hlower in Hc. unfold normalized in *.
  now rewrite !Hstrip by assumption.
Qed.

(** C10, as amended: [/signup] stores the account under the stripped and
    lower-cased address, and [/login] looks the stripped and lower-cased
    address up.  So after a successful signup, every address with the same
    stripped and lower-cased form as the one of the signup resolves to the
    account just created, and a login under such an address is decided by
    [bcrypt] on the password alone.  Addresses that differ from the one of
    the signup only in surrounding white space or in the case of ASCII
    letters are of that kind, by the two facts about [str.strip] and
    [str.lower]; addresses that differ in the case of other letters need not
    be. *)
Theorem login_resolves_signup_account (req : app.Request) (w w' : World)
    (uid : id_field) (name email password : string) :
  text_field req "name" = Some name ->
  text_field req "email" = Some email ->
  text_field req "password" = Some password ->
  app.dispatch (app.signup x req) w = (w', (app.json_user_created uid, 201)) ->
  exists hashed,
    app.hash_of x password = Ok hashed
    /\ let account :=
         {| u_id := ObjectId (next_oid w); u_name := app.str_strip x name;
            u_email := normalized x email; u_password := hashed;
            u_created_at := clock w |} in
       users_col w' = (users_col w ++ [account])%list
       /\ (forall email',
             normalized x email' = normalized x email ->
             db.find_user_by_email (normalized x email') w'
             = (w', Ok (Some account))
             /\ forall lreq password',
                  text_field lreq "email" = Some email' ->
                  text_field lreq "password" = Some password' ->
                  password' <> "" ->
                  app.dispatch (app.login x lreq) w'
                  = match app.check_of x hashed password' with
                    | Ok ok =>
                        (w', if ok then
                               (app.json_login
                                  (app.create_access_token x
                                     (StrId (next_oid w)))
                                  (StrId (next_oid w)) (app.str_strip x name)
                                  (normalized x email), 200)
                             else
                               app.failure "Invalid email or password." 401)
                    | Raise e => app.dispatch (raise e) w'
                    end)
       /\ (strip_ignores_white x -> lower_folds_ascii x ->
           forall email',
             same_address x email email' ->
             normalized x email' = normalized x email).
Proof.
  intros Hname Hemail Hpw Hrun.
  destruct (signup_created req w w' uid name email password
              Hname Hemail Hpw Hrun)
    as (hashed & Hh & Haddr & Hup & Hfresh & _ & Hw').
  exists hashed. split; [exact Hh|]. intros account.
  fold account in Hw'. split; [now rewrite Hw'|]. split.
  - intros email' Hsame.
    assert (db.find_user_by_email (normalized x email') w'
            = (w', Ok (Some account))) as Hfind.
    { unfold db.find_user_by_email. rewrite Hw'.
      cbn [mongo_up users_col with_users].
      rewrite Hup, Hsame.
      rewrite (find_app_last _ _ account Hfresh); [reflexivity|].
      apply String.eqb_refl. }
    split; [exact Hfind|].
    intros lreq password' Hemail' Hpw' Hne.
    apply text_field_inv in Hpw'.
    rewrite (login_run lreq w' email' (app.JStr password') (Some account));
      auto.
    + now rewrite Hsame.
    + cbn. now rewrite (is_empty_false _ Hne).
  - intros Hstrip Hlower email' Hsame. symmetry.
    now apply same_address_normalized.
Qed.

End Accounts.

(** ** Concrete runs of the account routes *)

Section AccountRuns.

(** The ASCII versions of the string methods have the two properties. *)
Lemma x0_strip_ignores_white : strip_ignores_white sample.x0.
Proof.
  intros pre s post Hpre Hpost. cbn.
  apply strip_surrounded; now apply strip_empty_blank.
Qed.

Lemma x0_lower_folds_ascii : lower_folds_ascii sample.x0.
Proof.
  intros s t Hc. unfold normalized. cbn.
  rewrite !lower_strip. apply caseless_lower in Hc. now rewrite Hc.
Qed.



(** Two logins with the number 12345 for a password: the address of no
    account is answered with 401, the address of Ann with 500. *)
Lemma login_reveals_registration_witness :
  app.dispatch
    (app.login sample.x0
       (sample.post_json
          [("email", app.JStr "ghost@example.org");
           ("password", app.JNum 12345)]))
    sample.w0
  = (sample.w0, app.failure "Invalid email or password." 401)
  /\ app.dispatch
       (app.login sample.x0
          (sample.post_json
             [("email", app.JStr "ann@example.org");
              ("password", app.JNum 12345)]))
       sample.w0
     = (sample.w0, (app.html_error_page, 500)).
Proof.
  destruct (login_reveals_registration sample.x0
              (sample.post_json
                 [("email", app.JStr "ghost@example.org");
                  ("password", app.JNum 12345)])
              (sample.post_json
                 [("email", app.JStr "ann@example.org");
                  ("password", app.JNum 12345)])
              sample.w0 "ghost@example.org" "ann@example.org"
              (app.JNum 12345) sample.ann
              eq_refl eq_refl eq_refl eq_refl
              ltac:(vm_compute; discriminate) ltac:(vm_compute; discriminate)
              eq_refl ltac:(intros s H; discriminate H) eq_refl eq_refl)
    as (H1 & H2 & _).
  split; [exact H1 | exact H2].
Defined.

(** The same with a text password of 73 characters, which [bcrypt] refuses
    to hash from version 5 on. *)
Lemma login_long_password :
  app.dispatch
    (app.login sample.x0
       (sample.login_req "ghost@example.org" sample.long_password))
    sample.w0
  = (sample.w0, app.failure "Invalid email or password." 401)
  /\ app.dispatch
       (app.login sample.x0
          (sample.login_req "ann@example.org" sample.long_password))
       sample.w0
     = (sample.w0, (app.html_error_page, 500)).
Proof.
  split; reflexivity.
Qed.

(** Bob signs up and logs in with his address written differently. *)
Lemma login_resolves_signup_account_witness :
  app.dispatch
    (app.signup sample.x0
       (sample.signup_req " Bob " " Bob@Example.org" "hunter2")) sample.w0
  = (sample.w_bob, (app.json_user_created (StrId 2), 201))
  /\ db.find_user_by_email (normalized sample.x0 "BOB@example.ORG  ")
       sample.w_bob
     = (sample.w_bob, Ok (Some sample.bob))
  /\ app.dispatch
       (app.login sample.x0 (sample.login_req "BOB@example.ORG  " "hunter2"))
       sample.w_bob
     = (sample.w_bob,
        (app.json_login "token" (StrId 2) "Bob" "bob@example.org", 200)).
Proof.
  assert (app.dispatch
            (app.signup sample.x0
               (sample.signup_req " Bob " " Bob@Example.org" "hunter2"))
            sample.w0
          = (sample.w_bob, (app.json_user_created (StrId 2), 201))) as Hrun
      by reflexivity.
  split; [exact Hrun|].
  destruct (login_resolves_signup_account sample.x0
              (sample.signup_req " Bob " " Bob@Example.org" "hunter2")
              sample.w0 sample.w_bob (StrId 2)
              " Bob " " Bob@Example.org" "hunter2"
              eq_refl eq_refl eq_refl Hrun)
    as (hashed & Hh & _ & Hsame & Hlaws).
  injection Hh as <-.
  assert (normalized sample.x0 "BOB@example.ORG  "
          = normalized sample.x0 " Bob@Example.org") as Hnorm.
  { apply (Hlaws x0_strip_ignores_white x0_lower_folds_ascii).
    exists " ", "Bob@Example.org", "", "", "BOB@example.ORG", "  ".
    repeat split. apply caseless_lower. reflexivity. }
  destruct (Hsame "BOB@example.ORG  " Hnorm) as [Hfind Hlogin].
  split; [exact Hfind|].
  apply (Hlogin (sample.login_req "BOB@example.ORG  " "hunter2") "hunter2");
    [reflexivity | reflexivity | discriminate].
Defined.

(** Counterexample to C10 as stated.  Eva signs up under an address with
    the letter sharp s, whose capital form is written SS; the address in
    capitals differs from hers only in letter case, and [str.lower] maps it
    to the text with a double s, which is not the address stored: the
    lookup finds no account and the login is answered with 401. *)
Lemma login_misses_signup_account :
  app.dispatch
    (app.signup sample.x0
       (sample.signup_req "Eva" sample.strasse "pw")) sample.w0
  = (sample.w_eva, (app.json_user_created (StrId 2), 201))
  /\ db.find_user_by_email (normalized sample.x0 "STRASSE@EXAMPLE.ORG")
       sample.w_eva
     = (sample.w_eva, Ok None)
  /\ app.dispatch
       (app.login sample.x0 (sample.login_req "STRASSE@EXAMPLE.ORG" "pw"))
       sample.w_eva
     = (sample.w_eva, app.failure "Invalid email or password." 401).
Proof.
  repeat split.
Qed.

End AccountRuns.

(** ** The prediction pipeline, step by step *)

Section Pipeline.

Import pystr.

Variable u : utils.Module_state.

Lemma same_store_refl (w : World) : same_store w w.
Proof. unfold same_store. tauto. Qed.

Lemma same_store_trans (w1 w2 w3 : World) :
  same_store w1 w2 -> same_store w2 w3 -> same_store w1 w3.
Proof.
  unfold same_store.
  intros (A1 & A2 & A3 & A4 & A5 & A6 & A7) (B1 & B2 & B3 & B4 & B5 & B6 & B7).
  repeat split; congruence.
Qed.

(** [ensure_upload_dir] touches the list of directories only. *)
Lemma ensure_upload_dir_frame (w w1 : World) (r : result unit) :
  utils.ensure_upload_dir u w = (w1, r) ->
  same_store w w1 /\ fs_files w1 = fs_files w /\ disk_ok w1 = disk_ok w
  /\ can_open w1 = can_open w
  /\ forward_passes w1 = forward_passes w
  /\ (disk_ok w = true -> r = Ok tt)
  /\ (r = Ok tt -> In (utils.UPLOAD_DIR u) (dirs w1)).
Proof.
  unfold utils.ensure_upload_dir.
  destruct (str_in (utils.UPLOAD_DIR u) (dirs w)) eqn:E.
  - intros [= <- <-]. repeat split; auto using same_store_refl.
    intros _. now apply str_in_In.
  - destruct (disk_ok w) eqn:D; intros [= <- <-]; cbn; rewrite ?D.
    + repeat split; auto.
    + repeat split; auto using same_store_refl; discriminate.
Qed.

(** [image.save] touches the files only, and only when it succeeds. *)
Lemma save_frame (image : app.FileStorage) (dst : string) (w w1 : World)
    (r : result unit) :
  app.save image dst w = (w1, r) ->
  same_store w w1 /\ dirs w1 = dirs w /\ disk_ok w1 = disk_ok w
  /\ can_open w1 = can_open w
  /\ forward_passes w1 = forward_passes w
  /\ (r = Ok tt <-> endswith "/" dst = false /\ can_open w dst = true)
  /\ fs_files w1
     = match r with
       | Ok _ => (dst, app.stream image) :: fs_files w
       | Raise _ => fs_files w
       end.
Proof.
  unfold app.save.
  destruct (endswith "/" dst); [|destruct (can_open w dst) eqn:D];
    intros [= <- <-]; cbn; rewrite ?D;
    repeat split; auto using same_store_refl;
    try discriminate; try (intros [? ?]; discriminate).
Qed.

(** The classifier touches the list of forward passes only. *)
Lemma predict_with_confidence_frame (image_path : string) (w w1 : World)
    (r : result (Z * R)) :
  utils.predict_with_confidence u image_path w = (w1, r) ->
  same_store w w1 /\ dirs w1 = dirs w /\ fs_files w1 = fs_files w
  /\ disk_ok w1 = disk_ok w.
Proof.
  unfold utils.predict_with_confidence, bind, utils._preprocess,
    utils.forward, lift, ret.
  destruct (utils.lookup_file image_path (fs_files w)) as [bytes|];
    [|intros [= <- <-]; auto using same_store_refl].
  destruct (utils.image_open u bytes) as [tensor|e];
    [|intros [= <- <-]; auto using same_store_refl].
  destruct (utils.view tensor) as [input|e];
    [|intros [= <- <-]; auto using same_store_refl].
  assert (same_store w (with_forward (forward_passes w ++ [image_path]) w))
    as F by (unfold same_store; cbn; tauto).
  destruct (utils.model u input) as [output|e]; [|intros [= <- <-]; auto].
  destruct (torch.max (numeric.softmax (utils.kernels u) output))
    as [[c k]|e]; intros [= <- <-]; auto.
Qed.

(** What the best-effort write leaves behind. *)
Lemma save_best_effort_world (name : string) (info : DiseaseInfo) (c : R)
    (w : World) :
  fst (app.save_best_effort name info c w)
  = if mongo_up w then
      with_predictions (predictions_col w ++ [prediction_doc w name c info]) w
    else
      fst (print (WithExn "[MongoDB] Could not save prediction: "
                    ServerSelectionTimeoutError) w).
Proof.
  cbv beta zeta iota delta [app.save_best_effort try_except bind
                            db.save_prediction db.utcnow
                            db.predictions_insert_one ret].
  destruct (mongo_up w); reflexivity.
Qed.

(** The run of [/api/predict] on an upload that passes the validation. *)
Lemma api_predict_accepted_run (req : app.Request) (image : app.FileStorage)
    (w : World) :
  app.assoc "image" (app.files req) = Some image ->
  app.filename image <> "" ->
  utils.allowed_file (app.filename image) = true ->
  let path := os_path_join (utils.UPLOAD_DIR u) (app.filename image) in
  app.api_predict u req w
  = match utils.ensure_upload_dir u w with
    | (w1, Raise e) => (w1, Ok (app.json_failure (WithExn "" e), 500))
    | (w1, Ok _) =>
        match app.save image path w1 with
        | (w2, Raise e) => (w2, Ok (app.json_failure (WithExn "" e), 500))
        | (w2, Ok _) =>
            match utils.predict_with_confidence u path w2 with
            | (w3, Raise e) => (w3, Ok (app.json_failure (WithExn "" e), 500))
            | (w3, Ok (pred, c)) =>
                match utils.get_disease_info u pred with
                | Raise e => (w3, Ok (app.json_failure (WithExn "" e), 500))
                | Ok info =>
                    (fst (app.save_best_effort (app.filename image) info c w3),
                     Ok (app.json_prediction info c, 200))
                end
            end
        end
    end.
Proof.
  intros Himg Hname Hok path. unfold app.api_predict.
  rewrite Himg, Hok. apply String.eqb_neq in Hname. rewrite Hname.
  cbn [negb]. unfold try_except, bind, lift, ret. fold path.
  destruct (utils.ensure_upload_dir u w) as [w1 [[]|e]]; [|reflexivity].
  destruct (app.save image path w1) as [w2 [[]|e]]; [|reflexivity].
  destruct (utils.predict_with_confidence u path w2) as [w3 [[pred c]|e]];
    [|reflexivity].
  destruct (utils.get_disease_info u pred) as [info|e]; [|reflexivity].
  pose proof (save_best_effort_ok (app.filename image) info c w3) as T.
  destruct (app.save_best_effort (app.filename image) info c w3) as [w4 r].
  simpl in T. subst r. reflexivity.
Qed.

(** X1: no exception leaves [/api/predict].  Every request is answered by
    the view itself: with 400 and a literal message, leaving the world as it
    was; with 500 and the text of the exception caught; or with 200 and a
    prediction. *)
Theorem api_predict_never_raises (req : app.Request) (w : World) :
  exists w' b s,
    app.api_predict u req w = (w', Ok (b, s))
    /\ ((s = 400 /\ w' = w /\ exists m, b = app.json_failure (Lit m))
        \/ (s = 500 /\ exists e, b = app.json_failure (WithExn "" e))
        \/ (s = 200 /\ exists info c, b = app.json_prediction info c)).
Proof.
  destruct (app.assoc "image" (app.files req)) as [image|] eqn:Himg.
  2: { unfold app.api_predict. rewrite Himg. unfold ret, app.failure.
       eexists _, _, _. split; [reflexivity|]. left. eauto. }
  destruct (String.eqb_spec (app.filename image) "") as [E | Hname].
  { unfold app.api_predict. rewrite Himg, E. cbn.
    eexists _, _, _. split; [reflexivity|]. left. eauto. }
  destruct (utils.allowed_file (app.filename image)) eqn:Hok.
  2: { unfold app.api_predict. rewrite Himg, Hok.
       apply String.eqb_neq in Hname. rewrite Hname. cbn.
       eexists _, _, _. split; [reflexivity|]. left. eauto. }
  rewrite (api_predict_accepted_run req image w Himg Hname Hok).
  destruct (utils.ensure_upload_dir u w) as [w1 [[]|e]];
    [|eexists _, _, _; split; [reflexivity | right; left; eauto]].
  destruct (app.save image _ w1) as [w2 [[]|e]];
    [|eexists _, _, _; split; [reflexivity | right; left; eauto]].
  destruct (utils.predict_with_confidence u _ w2) as [w3 [[pred c]|e]];
    [|eexists _, _, _; split; [reflexivity | right; left; eauto]].
  destruct (utils.get_disease_info u pred) as [info|e];
    eexists _, _, _; (split; [reflexivity|]); right; [right | left]; eauto.
Qed.

Lemma endswith_app (c : ascii) (s t : string) :
  t <> "" -> endswith c (s ++ t) = endswith c t.
Proof.
  intros Ht. induction s as [| d s IH]; [reflexivity|].
  simpl. destruct (s ++ t) eqn:E; [destruct s; simpl in E; congruence|].
  exact IH.
Qed.

Lemma endswith_slash_lower (s : string) :
  endswith "/" (lower s) = endswith "/" s.
Proof.
  induction s as [| d s IH]; [reflexivity|].
  simpl. destruct s as [| d' s]; simpl in *.
  - destruct d as [[] [] [] [] [] [] [] []]; reflexivity.
  - exact IH.
Qed.

(** A name that passes [allowed_file] does not end with a slash. *)
Lemma allowed_file_no_slash (name : string) :
  utils.allowed_file name = true -> endswith "/" name = false.
Proof.
  intros H. apply allowed_file_spec in H
    as (stem & ext & a & -> & _ & Ha & Hc).
  apply caseless_lower in Hc. rewrite (ALLOWED_lower a Ha) in Hc.
  assert (ext <> "") as Hext.
  { intros ->. simpl in Hc. subst a. simpl in Ha.
    repeat (destruct Ha as [Ha | Ha]; [discriminate|]). exact Ha. }
  change (stem ++ "." ++ ext) with (stem ++ String "." ext).
  rewrite endswith_app by discriminate.
  destruct ext as [| e ext]; [congruence|].
  change (endswith "/" (String "." (String e ext)))
    with (endswith "/" (String e ext)).
  rewrite <- endswith_slash_lower, Hc.
  simpl in Ha. repeat (destruct Ha as [<- | Ha]; [reflexivity|]).
  destruct Ha.
Qed.

Lemma os_path_join_endswith (a name : string) :
  name <> "" ->
  endswith "/" (os_path_join a name) = endswith "/" name.
Proof.
  intros Hname. unfold os_path_join.
  destruct (startswith "/" name); [reflexivity|].
  destruct (is_empty a || endswith "/" a).
  - now apply endswith_app.
  - rewrite endswith_app by discriminate.
    destruct name; [congruence | reflexivity].
Qed.

(** What [/api/predict] leaves on the disk for an upload that passes the
    validation, when the upload directory can be made and the file can be
    opened. *)
Lemma api_predict_accepted_files (req : app.Request)
    (image : app.FileStorage) (w : World) :
  app.assoc "image" (app.files req) = Some image ->
  app.filename image <> "" ->
  utils.allowed_file (app.filename image) = true ->
  disk_ok w = true ->
  can_open w (os_path_join (utils.UPLOAD_DIR u) (app.filename image)) = true ->
  fs_files (fst (app.api_predict u req w))
  = (os_path_join (utils.UPLOAD_DIR u) (app.filename image),
     app.stream image) :: fs_files w
  /\ In (utils.UPLOAD_DIR u) (dirs (fst (app.api_predict u req w))).
Proof.
  intros Himg Hname Hok Hdisk Hopen.
  rewrite (api_predict_accepted_run req image w Himg Hname Hok).
  set (path := os_path_join (utils.UPLOAD_DIR u) (app.filename image)) in *.
  assert (endswith "/" path = false) as Hpath.
  { unfold path. rewrite os_path_join_endswith by assumption.
    now apply allowed_file_no_slash. }
  destruct (utils.ensure_upload_dir u w) as [w1 r1] eqn:E1.
  destruct (ensure_upload_dir_frame w w1 r1 E1)
    as (_ & F1 & _ & O1 & _ & Hr1 & Hdir).
  assert (r1 = Ok tt) as -> by now apply Hr1.
  specialize (Hdir eq_refl).
  destruct (app.save image path w1) as [w2 r2] eqn:E2.
  destruct (save_frame image path w1 w2 r2 E2)
    as (_ & Dir2 & _ & _ & _ & Hr2 & F2).
  assert (r2 = Ok tt) as -> by (apply Hr2; split; congruence).
  destruct (utils.predict_with_confidence u path w2) as [w3 r3] eqn:E3.
  destruct (predict_with_confidence_frame path w2 w3 r3 E3)
    as (_ & Dir3 & F3 & _).
  assert (fs_files w3 = (path, app.stream image) :: fs_files w) as F
      by congruence.
  assert (In (utils.UPLOAD_DIR u) (dirs w3)) as Dir by congruence.
  destruct r3 as [[pred c]|e]; [|now split].
  destruct (utils.get_disease_info u pred) as [info|e]; [|now split].
  cbn [fst]. rewrite save_best_effort_world.
  destruct (mongo_up w3); cbn; now split.
Qed.


(** X3: the file name of the upload is joined to the upload directory as the
    client sent it.  A name that starts with a slash replaces the directory:
    when a file can be opened at that absolute path, the bytes are written
    there. *)
Theorem api_predict_absolute_name (req : app.Request)
    (image : app.FileStorage) (w : World) :
  app.assoc "image" (app.files req) = Some image ->
  utils.allowed_file (app.filename image) = true ->
  startswith "/" (app.filename image) = true ->
  disk_ok w = true ->
  can_open w (app.filename image) = true ->
  utils.lookup_file (app.filename image)
    (fs_files (fst (app.api_predict u req w))) = Some (app.stream image).
Proof.
  intros Himg Hok Habs Hdisk Hopen.
  assert (app.filename image <> "") as Hname
      by (intros E; rewrite E in Habs; discriminate).
  assert (os_path_join (utils.UPLOAD_DIR u) (app.filename image)
          = app.filename image) as Hjoin
      by (unfold os_path_join; now rewrite Habs).
  destruct (api_predict_accepted_files req image w Himg Hname Hok Hdisk)
    as [F _]; [now rewrite Hjoin|].
  rewrite F, Hjoin. simpl. now rewrite String.eqb_refl.
Qed.

(** X4: a 200 answer of [/api/predict], with the database reachable, has
    appended exactly one record to the predictions: the one with the name of
    the upload, the disease name and the confidence of the answer and the
    time of the request.  The accounts and the console are as before. *)
Theorem api_predict_success_recorded (req : app.Request) (w w' : World)
    (info : DiseaseInfo) (c : R) :
  app.api_predict u req w = (w', Ok (app.json_prediction info c, 200)) ->
  mongo_up w = true ->
  exists image,
    app.assoc "image" (app.files req) = Some image
    /\ predictions_col w'
       = (predictions_col w
          ++ [prediction_doc w (app.filename image) c info])%list
    /\ users_col w' = users_col w
    /\ stdout w' = stdout w.
Proof.
  intros Hrun Hup.
  destruct (app.assoc "image" (app.files req)) as [image|] eqn:Himg.
  2: { unfold app.api_predict in Hrun. rewrite Himg in Hrun. discriminate. }
  destruct (String.eqb_spec (app.filename image) "") as [E | Hname].
  { unfold app.api_predict in Hrun. rewrite Himg, E in Hrun. discriminate. }
  destruct (utils.allowed_file (app.filename image)) eqn:Hok.
  2: { unfold app.api_predict in Hrun. rewrite Himg, Hok in Hrun.
       apply String.eqb_neq in Hname. rewrite Hname in Hrun. discriminate. }
  rewrite (api_predict_accepted_run req image w Himg Hname Hok) in Hrun.
  exists image. split; [reflexivity|].
  destruct (utils.ensure_upload_dir u w) as [w1 r1] eqn:E1.
  destruct (ensure_upload_dir_frame w w1 r1 E1) as (S1 & _).
  destruct r1 as [[]|e]; [|discriminate].
  destruct (app.save image _ w1) as [w2 r2] eqn:E2.
  destruct (save_frame image _ w1 w2 r2 E2) as (S2 & _).
  destruct r2 as [[]|e]; [|discriminate].
  destruct (utils.predict_with_confidence u _ w2) as [w3 r3] eqn:E3.
  destruct (predict_with_confidence_frame _ w2 w3 r3 E3) as (S3 & _).
  destruct r3 as [[pred c']|e]; [|discriminate].
  destruct (utils.get_disease_info u pred) as [info'|e]; [|discriminate].
  injection Hrun as <- <- <-.
  pose proof (same_store_trans _ _ _ S1 (same_store_trans _ _ _ S2 S3))
    as (A1 & A2 & A3 & A4 & A5 & A6 & A7).
  rewrite save_best_effort_world. rewrite <- A1, Hup.
  unfold prediction_doc. rewrite A3, A4, A5, A6, A7. cbn. auto.
Qed.

End Pipeline.

(** ** More on the history of predictions *)

Section HistoryOrder.

Lemma older_than_key (t : Z) (d : document) :
  older_than t d <-> db.key_ltb (db.created_at d) (db.Date t) = true.
Proof.
  unfold db.key_ltb. destruct d as [p | c]; simpl.
  - rewrite negb_true_iff, Z.leb_gt. tauto.
  - tauto.
Qed.

Lemma sort_desc_newest_last (before : document -> document -> bool)
    (l : list document) (d : document) :
  (forall x, In x l ->
             db.key_ltb (db.created_at x) (db.created_at d) = true) ->
  db.sort_desc before (l ++ [d]) = d :: db.sort_desc before l.
Proof.
  induction l as [| x l IH]; intros H; [reflexivity|].
  change (db.sort_desc before ((x :: l) ++ [d]))
    with (db.insert_desc before x (db.sort_desc before (l ++ [d]))).
  rewrite IH by (intros y Hy; apply H; now right).
  specialize (H x (or_introl eq_refl)).
  cbn [db.insert_desc].
  assert (db.key_ltb (db.created_at d) (db.created_at x) = false) as ->.
  { unfold db.key_ltb in *. apply negb_true_iff in H.
    apply key_leb_total in H. now rewrite H. }
  now rewrite H.
Qed.

Lemma sorted_app_cross (l1 l2 : list document) :
  newest_first (l1 ++ l2) ->
  forall a b, In a l1 -> In b l2 -> not_older a b.
Proof.
  unfold newest_first. induction l1 as [| x l1 IH]; intros Hs a b Ha Hb.
  - destruct Ha.
  - simpl in Hs. apply StronglySorted_inv in Hs as [Hs Hx].
    destruct Ha as [<- | Ha]; [|now apply IH].
    rewrite Forall_forall in Hx. apply Hx, in_or_app. now right.
Qed.

Lemma In_firstn {A} (k : nat) (l : list A) (a : A) :
  In a (firstn k l) -> In a l.
Proof.
  intros H. rewrite <- (firstn_skipn k l). apply in_or_app. now left.
Qed.

(** X5: a prediction saved while every stored prediction is older heads the
    history, however the server orders documents with equal keys: with the
    database reachable, [save_prediction] returns the new id as text, and
    the next [get_recent_predictions] with a positive limit [n] returns the
    new record first, followed by fewer than [n] of the documents stored
    before, newest first. *)
Theorem saved_prediction_heads_history (name disease : string) (c : R)
    (details : DiseaseInfo) (w : World) (n : Z) :
  mongo_up w = true ->
  (forall d, In d (predictions_col w) -> older_than (clock w) d) ->
  0 < n < 2 ^ 63 ->
  let doc :=
    Prediction
      {| p_id := StrId (next_oid w); p_image_filename := name;
         p_disease_name := disease; p_confidence := c;
         p_description := info_description details;
         p_possible_steps := info_possible_steps details;
         p_supplement := info_supplement details;
         p_created_at := clock w |} in
  exists w' rest,
    db.save_prediction name disease c details w = (w', Ok (StrId (next_oid w)))
    /\ db.get_recent_predictions n w' = (w', Ok (doc :: rest))
    /\ Z.of_nat (List.length rest) < n
    /\ newest_first (doc :: rest)
    /\ forall d, In d rest ->
                 exists d0, In d0 (predictions_col w)
                            /\ d = db.stringify_id d0.
Proof.
  intros Hup Hold Hn doc.
  unfold db.save_prediction, bind, db.utcnow, db.predictions_insert_one, ret.
  rewrite Hup.
  set (w' := with_predictions _ w).
  set (rest := map db.stringify_id
                 (firstn (Z.to_nat n - 1)
                    (db.sort_desc (tie_break w) (predictions_col w)))).
  assert (db.get_recent_predictions n w' = (w', Ok (doc :: rest))) as Hrun.
  { rewrite get_recent_predictions_run. unfold w'.
    cbn [mongo_up predictions_col tie_break with_predictions].
    rewrite Hup.
    destruct (Z.leb_spec (2 ^ 63) (Z.abs n)); [lia|].
    rewrite sort_desc_newest_last
      by (intros x Hx; apply older_than_key; auto).
    unfold db.limit. destruct (Z.eqb_spec n 0) as [-> | _]; [lia|].
    replace (Z.abs_nat n) with (S (Z.to_nat n - 1)) by lia.
    reflexivity. }
  exists w', rest. split; [reflexivity|]. split; [exact Hrun|].
  destruct (get_recent_predictions_front n w' w' (doc :: rest) Hrun)
    as (_ & Hs & Hlen & _).
  split; [|split; [exact Hs|]].
  - specialize (Hlen ltac:(lia)). cbn [List.length] in Hlen. lia.
  - intros d Hd. unfold rest in Hd.
    apply in_map_iff in Hd as (d0 & <- & Hd0). exists d0. split; [|reflexivity].
    apply In_firstn in Hd0.
    now apply (Permutation_in _ (sort_desc_perm (tie_break w) _)).
Qed.

Lemma saved_prediction_heads_history_witness :
  exists w' rest,
    db.save_prediction "leaf.jpg" "Apple : Scab" 0%R
      (merged sample.row sample.srow) sample.w_pair = (w', Ok (StrId 3))
    /\ db.get_recent_predictions 2 w'
       = (w', Ok (Prediction
                    {| p_id := StrId 3; p_image_filename := "leaf.jpg";
                       p_disease_name := "Apple : Scab"; p_confidence := 0%R;
                       p_description := "Dark lesions on the leaves.";
                       p_possible_steps := "Remove the fallen leaves.";
                       p_supplement :=
                         {| sup_name := "Fungicide";
                            sup_image_url := "fungicide.jpg";
                            sup_buy_link := "https://shop.example/fungicide" |};
                       p_created_at := 1700000200 |} :: rest))
    /\ Z.of_nat (List.length rest) < 2.
Proof.
  destruct (saved_prediction_heads_history "leaf.jpg" "Apple : Scab" 0%R
              (merged sample.row sample.srow) sample.w_pair 2 eq_refl)
    as (w' & rest & H1 & H2 & H3 & _).
  - intros d [<- | [<- | []]]; simpl; lia.
  - lia.
  - exists w', rest. repeat split; assumption.
Defined.

(** X6: whatever the limit, [get_recent_predictions] returns documents of
    the collection, each with its id rendered as text, and none of the
    documents it leaves out would be listed before one it returns; with the
    limit 0 it leaves none out. *)
Theorem get_recent_predictions_newest (n : Z) (w w' : World)
    (l : list document) :
  db.get_recent_predictions n w = (w', Ok l) ->
  exists rest,
    Permutation (map db.stringify_id (predictions_col w)) (l ++ rest)
    /\ (forall a b, In a l -> In b rest -> not_older a b)
    /\ (n = 0 -> rest = []).
Proof.
  intros H.
  destruct (get_recent_predictions_front n w w' l H)
    as (_ & _ & _ & rest & Hp & Hall & H0).
  exists rest. repeat split; [exact Hp | | exact H0].
  now apply sorted_app_cross.
Qed.

(** Of the three stored documents, the one left out by the limit 2 is the
    document of [/test-db]. *)
Lemma get_recent_predictions_newest_witness :
  exists rest,
    Permutation (map db.stringify_id (predictions_col sample.w_history))
      ([db.stringify_id sample.recent_doc; db.stringify_id sample.old_doc]
       ++ rest)
    /\ (forall a b,
          In a [db.stringify_id sample.recent_doc;
                db.stringify_id sample.old_doc] ->
          In b rest -> not_older a b)
    /\ List.length rest = 1%nat.
Proof.
  destruct (get_recent_predictions_newest 2 sample.w_history sample.w_history
              [db.stringify_id sample.recent_doc;
               db.stringify_id sample.old_doc] eq_refl)
    as (rest & Hp & Hcross & _).
  exists rest. repeat split; [exact Hp | exact Hcross |].
  apply Permutation_length in Hp. rewrite length_app in Hp.
  simpl in Hp. lia.
Defined.

End HistoryOrder.

(** ** More on the catalog and on file names *)

Section CatalogDomain.

Import pystr.

(** X7: the catalog lookup succeeds exactly for the class indexes that name
    a row of both tables, whatever their lengths; it then returns the record
    merged from that row of each, and otherwise raises the [KeyError] of the
    index and nothing else. *)
Theorem get_disease_info_defined (u : utils.Module_state) (index : Z) :
  ((exists info, utils.get_disease_info u index = Ok info)
   <-> 0 <= index
       < Z.of_nat (Nat.min (List.length (utils.disease_info u))
                     (List.length (utils.supplement_info u))))
  /\ (forall info, utils.get_disease_info u index = Ok info ->
      exists d s,
        nth_error (utils.disease_info u) (Z.to_nat index) = Some d
        /\ nth_error (utils.supplement_info u) (Z.to_nat index) = Some s
        /\ info = merged d s)
  /\ (forall e, utils.get_disease_info u index = Raise e -> e = KeyError index).
Proof.
  set (m := Z.of_nat (Nat.min (List.length (utils.disease_info u))
                        (List.length (utils.supplement_info u)))).
  destruct (Z_lt_le_dec index 0) as [Hneg | Hpos];
    [|destruct (Z_lt_le_dec index m) as [Hin | Hout]].
  - rewrite (get_disease_info_missing u index) by now left.
    split; [split; [intros [info H]; discriminate | lia]|].
    split; [intros info H; discriminate | now intros e [= <-]].
  - destruct (nth_error (utils.disease_info u) (Z.to_nat index)) as [d|] eqn:Hd;
      [| apply nth_error_None in Hd; unfold m in Hin; lia].
    destruct (nth_error (utils.supplement_info u) (Z.to_nat index)) as [s|] eqn:Hs;
      [| apply nth_error_None in Hs; unfold m in Hin; lia].
    rewrite (get_disease_info_found u index d s Hpos Hd Hs).
    split; [split; [lia | eauto]|].
    split; [intros info [= <-]; eauto | intros e H; discriminate].
  - rewrite (get_disease_info_missing u index) by now right.
    split; [split; [intros [info H]; discriminate | lia]|].
    split; [intros info H; discriminate | now intros e [= <-]].
Qed.

(** X8: [allowed_file] looks at nothing but the text after the last dot: for
    an extension without a dot, the name is accepted exactly when the
    lower-cased extension is in the list, whatever stands before the dot,
    be it empty, a path, or a name with further dots. *)
Theorem allowed_file_extension_only (stem ext : string) :
  contains "." ext = false ->
  utils.allowed_file (stem ++ "." ++ ext)
  = str_in (lower ext) utils.ALLOWED.
Proof.
  intros Hext. unfold utils.allowed_file, rsplit1_last.
  change (stem ++ "." ++ ext) with (stem ++ String "." ext).
  rewrite (rsplit1_complete _ stem ext Hext).
  destruct (contains "." (stem ++ String "." ext)) eqn:C; [reflexivity|].
  apply rsplit1_none in C.
  rewrite (rsplit1_complete _ stem ext Hext) in C. discriminate.
Qed.

Lemma allowed_file_extension_only_witness :
  utils.allowed_file ("../shell.php" ++ "." ++ "PNG") = true
  /\ utils.allowed_file ("leaf.png" ++ "." ++ "exe") = false
  /\ utils.allowed_file ("" ++ "." ++ "jpg") = true.
Proof.
  rewrite !allowed_file_extension_only by reflexivity.
  repeat split.
Defined.

End CatalogDomain.

(** ** More on the account routes *)

Section AccountEffects.

Variable x : app.Extensions.

Ltac answered_without :=
  eexists _, _; split; [reflexivity | intros H; discriminate H].

(** X9: [/login] never changes the world, and it answers 200 only for a
    body with a text address and a text password such that an account is
    stored under the stripped and lower-cased address and [bcrypt] accepts
    the password for its hash; the body of the answer then carries the id,
    name and address of that account. *)
Theorem login_sound (req : app.Request) (w : World) :
  exists b s,
    app.dispatch (app.login x req) w = (w, (b, s))
    /\ (s = 200 ->
        exists account email password,
          text_field req "email" = Some email
          /\ text_field req "password" = Some password
          /\ In account (users_col w)
          /\ u_email account = normalized x email
          /\ app.check_of x (u_password account) password = Ok true
          /\ b = app.json_login
                   (app.create_access_token x (str_id (u_id account)))
                   (str_id (u_id account)) (u_name account)
                   (u_email account)).
Proof.
  unfold app.dispatch, app.login.
  destruct (app.get_json req) as [data|] eqn:Hbody; [|answered_without].
  destruct data as [| b0 | n | s0 | l | fields]; cbn [app.truthy negb];
    try answered_without.
  - destruct b0; answered_without.
  - destruct (n =? 0); answered_without.
  - destruct (pystr.is_empty s0); answered_without.
  - destruct l; answered_without.
  - destruct fields as [| f fields]; [answered_without|]. cbn [negb].
    unfold bind, lift, app.get, utils.rbind.
    destruct (app.assoc "email" (f :: fields))
      as [[| b0 | n | email | l | l]|] eqn:He; cbn [app.strip];
      try answered_without.
    2: { rewrite app.strip_empty, app.lower_empty.
         destruct (app.assoc "password" (f :: fields)); answered_without. }
    fold (normalized x email).
    destruct (app.assoc "password" (f :: fields)) as [pw|] eqn:Hp.
    2: { cbn [app.truthy pystr.is_empty negb]. rewrite orb_true_r.
         answered_without. }
    destruct (pystr.is_empty (normalized x email) || negb (app.truthy pw));
      [answered_without|].
    unfold db.find_user_by_email.
    destruct (mongo_up w); [|answered_without].
    destruct (find _ (users_col w)) as [account|] eqn:Hfind;
      [|answered_without].
    destruct pw as [| b0 | n | password | l | l];
      cbn [app.check_password_hash]; try answered_without.
    destruct (app.check_of x (u_password account) password)
      as [[|]|e] eqn:Hcheck;
      [| answered_without | destruct e; answered_without].
    cbn [negb]. eexists _, _. split; [reflexivity|]. intros _.
    apply find_some in Hfind as [Hin Heq]. apply String.eqb_eq in Heq.
    exists account, email, password.
    unfold text_field, json_field. rewrite Hbody, He, Hp.
    repeat split; auto.
Qed.

(** The run of [/signup], case by case: the world changes only in the one
    case that is answered with 201. *)
Lemma signup_effect (req : app.Request) (w : World) :
  (fst (app.dispatch (app.signup x req) w) = w
   /\ snd (snd (app.dispatch (app.signup x req) w)) <> 201)
  \/ exists name email password hashed,
       text_field req "name" = Some name
       /\ text_field req "email" = Some email
       /\ text_field req "password" = Some password
       /\ app.hash_of x password = Ok hashed
       /\ app.str_strip x name <> "" /\ normalized x email <> ""
       /\ password <> ""
       /\ mongo_up w = true
       /\ find (fun a => String.eqb (u_email a) (normalized x email))
            (users_col w) = None
       /\ app.dispatch (app.signup x req) w
          = (with_users
               (users_col w
                ++ [user_doc w (app.str_strip x name) (normalized x email)
                      hashed])%list w,
             (app.json_user_created (StrId (next_oid w)), 201)).
Proof.
  unfold app.dispatch, app.signup.
  destruct (app.get_json req) as [data|] eqn:Hbody;
    [|left; split; [reflexivity | discriminate]].
  destruct data as [| b0 | n | s0 | l | fields]; cbn [app.truthy negb];
    try (left; split; [reflexivity | discriminate]).
  - destruct b0; left; split; try reflexivity; discriminate.
  - destruct (n =? 0); left; split; try reflexivity; discriminate.
  - destruct (pystr.is_empty s0); left; split; try reflexivity; discriminate.
  - destruct l; left; split; try reflexivity; discriminate.
  - destruct fields as [| f fields];
      [left; split; [reflexivity | discriminate]|]. cbn [negb].
    unfold bind, lift, app.get, utils.rbind.
    destruct (app.assoc "name" (f :: fields))
      as [[| b0 | n | name | l | l]|] eqn:Hn; cbn [app.strip];
      try (left; split; [reflexivity | discriminate]).
    2: { rewrite app.strip_empty.
         destruct (app.assoc "email" (f :: fields)) as [[| | | | |]|];
           left; split; try reflexivity; cbn; intros H; discriminate H. }
    destruct (app.assoc "email" (f :: fields))
      as [[| b0 | n | email | l | l]|] eqn:He; cbn [app.strip];
      try (left; split; [reflexivity | discriminate]).
    2: { rewrite app.strip_empty, app.lower_empty.
         cbn. rewrite orb_true_r.
         left; split; [reflexivity | discriminate]. }
    fold (normalized x email).
    destruct (app.assoc "password" (f :: fields)) as [pw|] eqn:Hp.
    2: { cbn [app.truthy pystr.is_empty negb]. rewrite orb_true_r.
         left; split; [reflexivity | discriminate]. }
    destruct (pystr.is_empty (app.str_strip x name)) eqn:En;
      [left; split; [reflexivity | discriminate]|].
    destruct (pystr.is_empty (normalized x email)) eqn:Ee;
      [left; split; [reflexivity | discriminate]|].
    destruct (app.truthy pw) eqn:Et;
      [|left; split; [reflexivity | discriminate]].
    cbn [orb negb].
    unfold db.find_user_by_email, db.create_user, db.users_insert_one,
      db.utcnow, bind, ret.
    destruct (mongo_up w) eqn:Up;
      [|left; split; [reflexivity | discriminate]].
    destruct (find _ (users_col w)) as [a|] eqn:Hfind;
      [left; split; [reflexivity | discriminate]|].
    destruct pw as [| b0 | n | password | l | l];
      cbn [app.generate_password_hash];
      try (left; split; [reflexivity | discriminate]).
    destruct (app.hash_of x password) as [hashed | e] eqn:Hh;
      [|left; destruct e; split; try reflexivity; cbn; intros H;
        discriminate H].
    rewrite Up. cbn [u_email].
    destruct (unique_email_index w && existsb _ (users_col w));
      [left; split; [reflexivity | discriminate]|].
    right. exists name, email, password, hashed.
    unfold text_field, json_field. rewrite Hbody, Hn, He, Hp.
    repeat split; auto.
    + intros E. rewrite E in En. discriminate.
    + intros E. rewrite E in Ee. discriminate.
    + intros E. rewrite E in Et. discriminate.
Qed.

End AccountEffects.

Section AccountInvariants.

Variable x : app.Extensions.

(** X10: [/signup] writes only when it answers 201.  Every other answer
    leaves the world as it was; an answer of 201 has appended exactly one
    account, under the stripped name and the stripped and lower-cased
    address of the body, with the hash that [bcrypt] made of its password
    in place of the password, and at a time when no account had that
    address. *)
Theorem signup_writes_only_on_201 (req : app.Request) (w : World) :
  let r := app.dispatch (app.signup x req) w in
  (snd (snd r) <> 201 -> fst r = w)
  /\ (snd (snd r) = 201 ->
      exists name email password hashed,
        text_field req "name" = Some name
        /\ text_field req "email" = Some email
        /\ text_field req "password" = Some password
        /\ app.hash_of x password = Ok hashed
        /\ (forall a, In a (users_col w) -> u_email a <> normalized x email)
        /\ users_col (fst r)
           = (users_col w
              ++ [user_doc w (app.str_strip x name) (normalized x email)
                    hashed])%list
        /\ predictions_col (fst r) = predictions_col w
        /\ fst (snd r) = app.json_user_created (StrId (next_oid w))).
Proof.
  intros r. subst r.
  destruct (signup_effect x req w) as [[Hw Hs] | H].
  - split; [auto | contradiction].
  - destruct H as (name & email & password & hashed & Hn & He & Hp & Hh
                   & _ & _ & _ & _ & Hfresh & Hrun).
    rewrite Hrun. split; [intros H; now contradiction H|]. intros _.
    exists name, email, password, hashed. repeat split; auto.
    intros a Ha E.
    pose proof (find_none _ _ Hfresh a Ha) as F. cbn in F.
    rewrite E, String.eqb_refl in F. discriminate.
Qed.

Lemma NoDup_snoc {A} (l : list A) (a : A) :
  NoDup l -> ~ In a l -> NoDup (l ++ [a]).
Proof.
  induction 1 as [| y l Hy Hl IH]; intros Ha; simpl.
  - constructor; [intros [] | constructor].
  - constructor.
    + intros H. apply in_app_or in H as [H | [<- | []]]; [auto|].
      apply Ha. now left.
    + apply IH. intros H. apply Ha. now right.
Qed.

(** X11: [/signup] keeps the addresses of the accounts distinct, also when
    the unique index of the collection could not be created: the lookup
    before the insertion is enough for requests that run one after the
    other. *)
Theorem signup_keeps_unique_emails (req : app.Request) (w : World) :
  unique_emails w ->
  unique_emails (fst (app.dispatch (app.signup x req) w)).
Proof.
  intros Hu.
  destruct (signup_effect x req w) as [[Hw _] | H]; [now rewrite Hw|].
  destruct H as (name & email & password & hashed & _ & _ & _ & _ & _ & _
                 & _ & _ & Hfresh & Hrun).
  rewrite Hrun. unfold unique_emails in *. cbn [fst users_col with_users].
  rewrite map_app. apply NoDup_snoc; [exact Hu|].
  cbn. intros H. apply in_map_iff in H as (a & E & Ha).
  pose proof (find_none _ _ Hfresh a Ha) as F. cbn in F.
  rewrite E, String.eqb_refl in F. discriminate.
Qed.

(** X12: a JSON body that is true in Python but is no object, such as a
    non-empty array, a non-empty string or a number other than zero, makes
    both account routes fail with an exception that leaves the view: the
    answer is the 500 page of the framework, not a JSON failure, and nothing
    is written. *)
Theorem account_routes_need_object (req : app.Request) (data : app.json)
    (w : World) :
  app.get_json req = Some data ->
  app.truthy data = true ->
  (forall fields, data <> app.JObj fields) ->
  app.dispatch (app.signup x req) w = (w, (app.html_error_page, 500))
  /\ app.dispatch (app.login x req) w = (w, (app.html_error_page, 500)).
Proof.
  intros Hbody Ht Hobj. unfold app.dispatch, app.signup, app.login.
  rewrite Hbody, Ht. cbn [negb].
  destruct data as [| b | n | s | l | fields];
    try (split; reflexivity).
  now contradiction (Hobj fields).
Qed.

End AccountInvariants.

Lemma signup_keeps_unique_emails_witness :
  unique_emails
    (fst (app.dispatch
            (app.signup sample.x0
               (sample.signup_req " Bob " " Bob@Example.org" "hunter2"))
            sample.w0)).
Proof.
  apply (signup_keeps_unique_emails sample.x0).
  unfold unique_emails. simpl. repeat constructor; simpl; tauto.
Defined.

Lemma account_routes_need_object_witness :
  app.dispatch
    (app.signup sample.x0
       {| app.method := app.POST; app.files := [];
          app.get_json := Some (app.JArr [app.JStr "ann@example.org"]) |})
    sample.w0
  = (sample.w0, (app.html_error_page, 500))
  /\ app.dispatch
       (app.login sample.x0
          {| app.method := app.POST; app.files := [];
             app.get_json := Some (app.JArr [app.JStr "ann@example.org"]) |})
       sample.w0
     = (sample.w0, (app.html_error_page, 500)).
Proof.
  apply (account_routes_need_object sample.x0
           {| app.method := app.POST; app.files := [];
              app.get_json := Some (app.JArr [app.JStr "ann@example.org"]) |}
           (app.JArr [app.JStr "ann@example.org"]) sample.w0 eq_refl eq_refl).
  intros fields H. discriminate H.
Defined.

(** ** The user gateway *)

Section UserGateway.

Lemma find_app_first {A} (f : A -> bool) (l : list A) (a b : A) :
  find f l = Some b -> find f (l ++ [a])%list = Some b.
Proof.
  induction l as [| y l IH]; simpl; [discriminate|].
  destruct (f y); auto.
Qed.

(** X13: with the database reachable, [create_user] followed by
    [find_user_by_email] for the same address finds an account: the one
    just created when no account had the address, and the older one
    otherwise, which happens only without the unique index. *)
Theorem create_user_then_find (name email hashed : string) (w w' : World)
    (uid : id_field) :
  db.create_user name email hashed w = (w', Ok uid) ->
  uid = StrId (next_oid w)
  /\ users_col w' = (users_col w ++ [user_doc w name email hashed])%list
  /\ db.find_user_by_email email w'
     = (w', Ok (match find (fun a => String.eqb (u_email a) email)
                        (users_col w) with
                | Some older => Some older
                | None => Some (user_doc w name email hashed)
                end))
  /\ (unique_email_index w = true ->
      find (fun a => String.eqb (u_email a) email) (users_col w) = None).
Proof.
  unfold db.create_user, db.users_insert_one, db.utcnow, bind, ret.
  destruct (mongo_up w) eqn:Up; [|discriminate]. cbn [u_email].
  destruct (unique_email_index w) eqn:Ix; cbn [andb].
  - destruct (existsb _ (users_col w)) eqn:Ex; [discriminate|].
    intros [= <- <-]. fold (user_doc w name email hashed).
    assert (find (fun a => String.eqb (u_email a) email) (users_col w) = None)
      as Hnone.
    { destruct (find _ (users_col w)) as [a|] eqn:F; [|reflexivity].
      apply find_some in F as [Ha Heq].
      assert (existsb (fun u0 => String.eqb (u_email u0) email) (users_col w)
              = true) as T
          by (apply existsb_exists; eauto).
      congruence. }
    repeat split; auto.
    unfold db.find_user_by_email. cbn [mongo_up users_col with_users].
    rewrite Up, Hnone.
    rewrite (find_app_last _ _ _ Hnone); [reflexivity|].
    apply String.eqb_refl.
  - intros [= <- <-]. fold (user_doc w name email hashed).
    repeat split; auto; [|discriminate].
    unfold db.find_user_by_email. cbn [mongo_up users_col with_users].
    rewrite Up.
    destruct (find _ (users_col w)) as [older|] eqn:F.
    + now rewrite (find_app_first _ _ _ _ F).
    + rewrite (find_app_last _ _ _ F); [reflexivity|].
      apply String.eqb_refl.
Qed.

Lemma create_user_then_find_witness :
  db.find_user_by_email "bob@example.org" sample.w_bob
  = (sample.w_bob, Ok (Some sample.bob)).
Proof.
  destruct (create_user_then_find "Bob" "bob@example.org" "$2b$hunter2"
              sample.w0 sample.w_bob (StrId 2) eq_refl)
    as (_ & _ & H & _).
  exact H.
Defined.

(** X14: with the unique index in place, [create_user] refuses an address
    that an account already has: it raises [DuplicateKeyError] and stores
    nothing, whatever the name and the hash. *)
Theorem create_user_duplicate (name email hashed : string) (w : World)
    (account : UserDoc) :
  mongo_up w = true ->
  unique_email_index w = true ->
  In account (users_col w) ->
  u_email account = email ->
  db.create_user name email hashed w = (w, Raise DuplicateKeyError).
Proof.
  intros Up Ix Hin Heq.
  unfold db.create_user, db.users_insert_one, db.utcnow, bind, ret.
  rewrite Up, Ix. cbn [u_email andb].
  assert (existsb (fun u0 => String.eqb (u_email u0) email) (users_col w)
          = true) as ->; [|reflexivity].
  apply existsb_exists. exists account. split; [exact Hin|].
  now apply String.eqb_eq.
Qed.

Lemma create_user_duplicate_witness :
  db.create_user "Impostor" "ann@example.org" "$2b$other" sample.w0
  = (sample.w0, Raise DuplicateKeyError).
Proof.
  apply (create_user_duplicate "Impostor" "ann@example.org" "$2b$other"
           sample.w0 sample.ann eq_refl eq_refl).
  - now left.
  - reflexivity.
Defined.

End UserGateway.

(** ** The history route *)

Section HistoryRoute.


End HistoryRoute.

(** ** The form route and the JSON route *)

Section FormRoute.

Import pystr.

Variable u : utils.Module_state.

(** The run of [/submit] on a form with a file. *)
Lemma submit_post_run (req : app.Request) (image : app.FileStorage)
    (w : World) :
  app.method req = app.POST ->
  app.assoc "image" (app.files req) = Some image ->
  let path := os_path_join (utils.UPLOAD_DIR u) (app.filename image) in
  app.submit u req w
  = match utils.ensure_upload_dir u w with
    | (w1, Raise e) => (w1, Raise e)
    | (w1, Ok _) =>
        match app.save image path w1 with
        | (w2, Raise e) => (w2, Raise e)
        | (w2, Ok _) =>
            match utils.predict_with_confidence u path w2 with
            | (w3, Raise e) => (w3, Raise e)
            | (w3, Ok (pred, c)) =>
                match utils.get_disease_info u pred with
                | Raise e => (w3, Raise e)
                | Ok info =>
                    (fst (app.save_best_effort (app.filename image) info c w3),
                     Ok (app.html_submit info pred, 200))
                end
            end
        end
    end.
Proof.
  intros Hpost Himg path. unfold app.submit, app.files_getitem.
  rewrite Hpost, Himg. unfold bind, lift, ret. fold path.
  destruct (utils.ensure_upload_dir u w) as [w1 [[]|e]]; [|reflexivity].
  destruct (app.save image path w1) as [w2 [[]|e]]; [|reflexivity].
  destruct (utils.predict_with_confidence u path w2) as [w3 [[pred c]|e]];
    [|reflexivity].
  destruct (utils.get_disease_info u pred) as [info|e]; [|reflexivity].
  pose proof (save_best_effort_ok (app.filename image) info c w3) as T.
  destruct (app.save_best_effort (app.filename image) info c w3) as [w4 r].
  simpl in T. subst r. reflexivity.
Qed.

Ltac failed_step :=
  cbn [fst snd]; split; [reflexivity|]; split;
  [ intros ?; split;
    [ intros (? & H & _); discriminate H | intros (? & H); discriminate H ]
  | intros ?; split; intros H; injection H as <-; reflexivity ].

(** X16: on an upload that passes the validation of [/api/predict], the two
    prediction routes run the same steps.  They leave the same world; the
    form route renders the record that the JSON route returns; and the
    exception that the JSON route reports with 500 is the one that leaves
    the view of the form route. *)
Theorem submit_matches_api_predict (req : app.Request)
    (image : app.FileStorage) (w : World) :
  app.method req = app.POST ->
  app.assoc "image" (app.files req) = Some image ->
  app.filename image <> "" ->
  utils.allowed_file (app.filename image) = true ->
  fst (app.submit u req w) = fst (app.api_predict u req w)
  /\ (forall info,
        (exists pred,
            snd (app.submit u req w) = Ok (app.html_submit info pred, 200)
            /\ utils.get_disease_info u pred = Ok info)
        <-> (exists c,
               snd (app.api_predict u req w)
               = Ok (app.json_prediction info c, 200)))
  /\ (forall e,
        snd (app.submit u req w) = Raise e
        <-> snd (app.api_predict u req w)
            = Ok (app.json_failure (WithExn "" e), 500)).
Proof.
  intros Hpost Himg Hname Hok.
  rewrite (submit_post_run req image w Hpost Himg).
  rewrite (api_predict_accepted_run u req image w Himg Hname Hok).
  cbv zeta.
  destruct (utils.ensure_upload_dir u w) as [w1 [[]|e1]].
  2: { failed_step. }
  destruct (app.save image _ w1) as [w2 [[]|e2]].
  2: { failed_step. }
  destruct (utils.predict_with_confidence u _ w2) as [w3 [[pred c]|e3]].
  2: { failed_step. }
  destruct (utils.get_disease_info u pred) as [info|e4] eqn:Hinfo.
  2: { failed_step. }
  cbn [fst snd]. split; [reflexivity|]. split.
  - intros info'. split.
    + intros (pred' & [= <- <-] & _). eauto.
    + intros (c' & [= <- <-]). eauto.
  - intros e. split; intros H; discriminate H.
Qed.


End FormRoute.

(** ** Concrete runs of the extended routes *)

Section ExtendedRuns.

(** The run of [/api/predict] on [leaf.jpg] in the sample world. *)
Lemma api_predict_leaf_run :
  app.api_predict sample.u0 (sample.upload "leaf.jpg") sample.w0
  = (with_predictions
       [sample.old_doc;
        prediction_doc sample.w0 "leaf.jpg" sample.uniform_confidence
          (merged sample.row sample.srow)]
       (with_forward [sample.leaf_path]
          (with_files [(sample.leaf_path, "bytes")]
             (with_dirs ["/srv/app/static/uploads"] sample.w0))),
     Ok (app.json_prediction (merged sample.row sample.srow)
           sample.uniform_confidence, 200)).
Proof.
  rewrite (api_predict_accepted_run sample.u0 (sample.upload "leaf.jpg")
             {| app.filename := "leaf.jpg"; app.stream := "bytes" |}
             sample.w0 eq_refl ltac:(discriminate) eq_refl).
  cbv zeta.
  change (utils.ensure_upload_dir sample.u0 sample.w0)
    with (with_dirs ["/srv/app/static/uploads"] sample.w0, Ok tt).
  cbv iota beta.
  change (app.save _ _ (with_dirs ["/srv/app/static/uploads"] sample.w0))
    with (with_files [(sample.leaf_path, "bytes")]
            (with_dirs ["/srv/app/static/uploads"] sample.w0), Ok tt).
  cbv iota beta.
  change (pystr.os_path_join (utils.UPLOAD_DIR sample.u0) (app.filename _))
    with sample.leaf_path.
  rewrite (predict_uniform sample.u0
             (with_files [(sample.leaf_path, "bytes")]
                (with_dirs ["/srv/app/static/uploads"] sample.w0))
             sample.leaf_path "bytes" sample.rgb 0%R 38 eq_refl eq_refl eq_refl eq_refl
                 eq_refl).
  reflexivity.
Qed.


Lemma api_predict_absolute_name_witness :
  utils.lookup_file "/srv/app/templates/home.png"
    (fs_files (fst (app.api_predict sample.u0
                      (sample.upload "/srv/app/templates/home.png")
                      sample.w0)))
  = Some "bytes".
Proof.
  exact (api_predict_absolute_name sample.u0
           (sample.upload "/srv/app/templates/home.png")
           {| app.filename := "/srv/app/templates/home.png";
              app.stream := "bytes" |}
           sample.w0 eq_refl eq_refl eq_refl eq_refl eq_refl).
Defined.

Lemma api_predict_success_recorded_witness :
  exists image,
    app.assoc "image" (app.files (sample.upload "leaf.jpg")) = Some image
    /\ predictions_col
         (fst (app.api_predict sample.u0 (sample.upload "leaf.jpg") sample.w0))
       = (predictions_col sample.w0
          ++ [prediction_doc sample.w0 (app.filename image)
                sample.uniform_confidence (merged sample.row sample.srow)])%list
    /\ users_col
         (fst (app.api_predict sample.u0 (sample.upload "leaf.jpg") sample.w0))
       = users_col sample.w0
    /\ stdout
         (fst (app.api_predict sample.u0 (sample.upload "leaf.jpg") sample.w0))
       = stdout sample.w0.
Proof.
  apply (api_predict_success_recorded sample.u0 (sample.upload "leaf.jpg")
           sample.w0 _ (merged sample.row sample.srow)
           sample.uniform_confidence);
    [|reflexivity].
  rewrite api_predict_leaf_run. reflexivity.
Defined.

Lemma submit_matches_api_predict_witness :
  fst (app.submit sample.u0 (sample.upload "leaf.jpg") sample.w0)
  = fst (app.api_predict sample.u0 (sample.upload "leaf.jpg") sample.w0).
Proof.
  destruct (submit_matches_api_predict sample.u0 (sample.upload "leaf.jpg")
              {| app.filename := "leaf.jpg"; app.stream := "bytes" |}
              sample.w0 eq_refl eq_refl ltac:(discriminate) eq_refl)
    as [H _].
  exact H.
Defined.


End ExtendedRuns.
